(** * halotools.read_nbody: catalog cache lookup and catalog loading

    A shallow embedding of [Catalog_Manager] from [halotools/read_nbody.py]
    and the properties of its methods.

    Conventions of the embedding.
    - Python [str] values are [string]; a file's content is a [string] too
      (Python 2 byte strings).
    - Python floats are modelled twice. [Binary64] has the IEEE doubles of
      Python and numpy (the [spec_float] of the standard library at
      precision 53) and the lookup [Binary64.find_nearest_snapshot_in_cache]
      on them: differences are rounded and compared as the code computes
      them, and this is the model of every property that depends on which
      difference is smaller or on the comparison with the tolerance. The
      other definitions read floats as exact rationals [Q]; they carry the
      properties that no rounding decides (which requests are refused, what
      a lookup without candidates does, what is emitted and in which
      order), and [numptcl_to_string] on a digit times a power of ten, where
      every quotient is an integer.
    - A raised exception is the [Raise] outcome of [Py.result];
      [warnings.warn] appends to a list of messages returned with the outcome.
    - The modules [configuration] and [defaults] are not part of this
      source file; they are records of what the code reads from them.
    - The file system is a finite map from path to content, the remote
      archive a finite map from URL to body, and every effect of
      [load_catalog] is recorded in an event trace. *)

From Stdlib Require Import ZArith QArith Qround Qabs Qpower Lia Lqa String Ascii List DecimalString
  SpecFloat.
From stdpp Require Import gmap strings list.

Local Open Scope string_scope.
Local Open Scope Z_scope.

(** ** Python and numpy primitives used by the module *)

Module Py.

Inductive exn : Type :=
| IOError (msg : string)
| IndexError
| ValueError
| ZeroDivisionError
| URLError.

Inductive result (A : Type) : Type :=
| Return (a : A)
| Raise (e : exn).
Arguments Return {A} a.
Arguments Raise {A} e.

Definition bind {A B : Type} (r : result A) (k : A -> result B) : result B :=
  match r with
  | Return a => k a
  | Raise e => Raise e
  end.

(** [len(s)] as a Python integer. *)
Definition len (s : string) : Z := Z.of_nat (String.length s).

(** A slice bound [i] of a sequence of length [n]: a negative bound counts
    from the end, and every bound is clamped to [0 .. n]. *)
Definition slice_bound (n i : Z) : Z :=
  if i <? 0 then Z.max 0 (n + i) else Z.min i n.

(** [s[start:stop]]; [None] is an omitted bound. *)
Definition slice (s : string) (start stop : option Z) : string :=
  let lo := match start with Some i => slice_bound (len s) i | None => 0 end in
  let hi := match stop with Some j => slice_bound (len s) j | None => len s end in
  substring (Z.to_nat lo) (Z.to_nat (hi - lo)) s.

(** [s[i]]: raises [IndexError] out of range. *)
Definition getitem (s : string) (i : Z) : result ascii :=
  let j := if i <? 0 then len s + i else i in
  if (j <? 0) || (len s <=? j) then Raise IndexError
  else match String.get (Z.to_nat j) s with
       | Some c => Return c
       | None => Raise IndexError
       end.

Definition startswith_slash (b : string) : bool :=
  match b with
  | String c _ => Ascii.eqb c "/"%char
  | EmptyString => false
  end.

Fixpoint endswith_slash (p : string) : bool :=
  match p with
  | EmptyString => false
  | String c EmptyString => Ascii.eqb c "/"%char
  | String _ rest => endswith_slash rest
  end.

(** [os.path.join(a, b)] of [posixpath]. *)
Definition path_join (a b : string) : string :=
  if startswith_slash b then b
  else if String.eqb a "" || endswith_slash a then a +:+ b
  else a +:+ "/" +:+ b.

(** [str(n)] for an integer [n]. *)
Definition str_int (n : Z) : string := NilEmpty.string_of_int (Z.to_int n).

(** [np.round(x)]: the nearest integer, halves to the even neighbour. *)
Definition np_round (x : Q) : Z :=
  let f := Qfloor x in
  match Qcompare (x - inject_Z f) (1 # 2) with
  | Lt => f
  | Gt => f + 1
  | Eq => if Z.even f then f else f + 1
  end.

(** [np.round(x, decimals)], on the exact value of [x]: numpy scales,
    rounds and divides in doubles, and may differ from this in the last
    place. *)
Definition np_round_decimals (x : Q) (decimals : Z) : Q :=
  let scale := Qpower (10 # 1) decimals in
  Qred (inject_Z (np_round (x * scale)) / scale).

(** [x < y] on floats. *)
Definition float_lt (x y : Q) : bool := negb (Qle_bool y x).

(** The scan of [ndarray.argmin]: the running best index is replaced only
    by a strictly smaller element, so the first minimum wins. *)
Fixpoint argmin_from (best_i : nat) (best : Q) (i : nat) (l : list Q) : nat :=
  match l with
  | [] => best_i
  | x :: rest =>
      if float_lt x best then argmin_from i x (S i) rest
      else argmin_from best_i best (S i) rest
  end.

(** [a.argmin()]: raises [ValueError] on an empty array. *)
Definition argmin (l : list Q) : result nat :=
  match l with
  | [] => Raise ValueError
  | x :: rest => Return (argmin_from 0 x 1 rest)
  end.

(** [x / y] on floats: a zero divisor raises [ZeroDivisionError]. *)
Definition float_div (x y : Q) : result Q :=
  if Qeq_bool y 0 then Raise ZeroDivisionError else Return (x / y)%Q.

(** [[f(a) for a in l]]: the elements are evaluated in order and the
    first exception ends the comprehension. *)
Fixpoint comprehension {A B : Type} (f : A -> result B) (l : list A) : result (list B) :=
  match l with
  | [] => Return []
  | a :: rest =>
      match f a with
      | Raise e => Raise e
      | Return b =>
          match comprehension f rest with
          | Raise e => Raise e
          | Return bs => Return (b :: bs)
          end
      end
  end.

(** [l[i]] for a list and an index that is not negative. *)
Definition list_getitem {A : Type} (l : list A) (i : nat) : result A :=
  match l !! i with
  | Some a => Return a
  | None => Raise IndexError
  end.

(** A computation that may call [warnings.warn]: the messages emitted so
    far, in order, and the outcome. *)
Record warned (A : Type) : Type := Warned {
  warnings : list string;
  outcome : result A
}.
Arguments Warned {A} warnings outcome.
Arguments warnings {A} w.
Arguments outcome {A} w.

Definition wbind {A B : Type} (m : warned A) (k : A -> warned B) : warned B :=
  match outcome m with
  | Return a => Warned (warnings m ++ warnings (k a)) (outcome (k a))
  | Raise e => Warned (warnings m) (Raise e)
  end.

Definition warn (msg : string) : warned unit := Warned [msg] (Return tt).
Definition lift {A : Type} (r : result A) : warned A := Warned [] r.

(** [a[mask]] for a boolean mask of the same length. *)
Fixpoint select {A : Type} (a : list A) (mask : list bool) : list A :=
  match a, mask with
  | x :: a', b :: mask' => if b then x :: select a' mask' else select a' mask'
  | _, _ => []
  end.

End Py.

Import Py.

#[global] Instance result_bind : MBind result := fun A B k r => Py.bind r k.
#[global] Instance result_ret : MRet result := fun A a => Return a.
#[global] Instance warned_bind : MBind warned := fun A B k m => Py.wbind m k.
#[global] Instance warned_ret : MRet warned := fun A a => Warned [] (Return a).

(** ** The modules [configuration] and [defaults] *)

(** What [read_nbody] calls in [configuration]. *)
Record configuration : Type := {
  list_of_catalogs_in_cache : option string -> list string;
  get_catalogs_dir : string -> string
}.

(** What [read_nbody] reads from [defaults]. *)
Record defaults : Type := {
  default_simulation_name : string;
  default_scale_factor : Q;
  default_halo_finder : string;
  default_numptcl : Q;
  scale_factor_difference_tol : Q;
  halo_catalog_dirname : string;
  aph_web_location : string
}.

(** ** [Catalog_Manager.identify_relevant_catalogs] *)

(** [if catalog_type == 'halo': catalog_type='halos'] and the same for
    ['particle']. *)
Definition fix_pluralization (catalog_type : string) : string :=
  let catalog_type := if String.eqb catalog_type "halo" then "halos" else catalog_type in
  let catalog_type := if String.eqb catalog_type "particle" then "particles" else catalog_type in
  catalog_type.

(** [for ii,c in enumerate(available_catalogs): if cond(c): file_mask[ii]=False] *)
Fixpoint mask_loop (cond : string -> result bool) (ii : nat)
    (available_catalogs : list string) (file_mask : list bool) : result (list bool) :=
  match available_catalogs with
  | [] => Return file_mask
  | c :: rest =>
      b ← cond c;
      mask_loop cond (S ii) rest (if b : bool then <[ii := false]> file_mask else file_mask)
  end.

(** [c[-len(catalog_type)-5:] != last_characters_of_filename] *)
Definition catalog_type_mismatch (catalog_type c : string) : result bool :=
  let last_characters_of_filename := catalog_type +:+ ".fits" in
  Return (negb (String.eqb (slice c (Some (- len catalog_type - 5)) None)
                           last_characters_of_filename)).

(** [(c[0:len(simname)] != first_characters_of_filename) or (c[len(simname)] != '_')];
    [or] evaluates its second operand only when the first is false. *)
Definition simname_mismatch (simname c : string) : result bool :=
  let first_characters_of_filename := simname in
  if negb (String.eqb (slice c (Some 0) (Some (len simname))) first_characters_of_filename)
  then Return true
  else ch ← getitem c (len simname); Return (negb (Ascii.eqb ch "_"%char)).

(** [c[-11-len(halo_finder):-11] != halo_finder] *)
Definition halo_finder_mismatch (halo_finder c : string) : result bool :=
  Return (negb (String.eqb (slice c (Some (-11 - len halo_finder)) (Some (-11)))
                           halo_finder)).

Definition identify_relevant_catalogs (cfg : configuration)
    (catalog_type simname halo_finder : option string) : result (list string) :=
  let catalog_type := fix_pluralization <$> catalog_type in
  let available_catalogs := list_of_catalogs_in_cache cfg catalog_type in
  let file_mask := repeat true (length available_catalogs) in
  file_mask ←
    match catalog_type with
    | Some ct => mask_loop (catalog_type_mismatch ct) 0 available_catalogs file_mask
    | None => Return file_mask
    end;
  file_mask ←
    match simname with
    | Some sn => mask_loop (simname_mismatch sn) 0 available_catalogs file_mask
    | None => Return file_mask
    end;
  file_mask ←
    match halo_finder with
    | Some hf => mask_loop (halo_finder_mismatch hf) 0 available_catalogs file_mask
    | None => Return file_mask
    end;
  Return (select available_catalogs file_mask).

(** ** [Catalog_Manager.find_nearest_snapshot_in_cache] *)

Section Locator.

(** The builtins [float(s)] on a string ([None] is its [ValueError]) and
    [str(x)] on a float. *)
Variable py_float : string -> option Q.
Variable py_str : Q -> string.

Definition float_of (s : string) : result Q :=
  match py_float s with
  | Some x => Return x
  | None => Raise ValueError
  end.

Definition find_nearest_snapshot_in_cache (cfg : configuration) (dflt : defaults)
    (catalog_type : string) (scale_factor redshift : option Q)
    (simname halo_finder : string) : warned (option string * option Q) :=
  let catalog_type := fix_pluralization catalog_type in
  scale_factor ←
    match scale_factor, redshift with
    | None, None =>
        lift (Raise (IOError "Must specify either a redshift or a scale factor"))
    | None, Some redshift => lift (float_div 1 (1 + redshift)%Q)
    | Some scale_factor, None => mret scale_factor
    | Some _, Some _ =>
        lift (Raise (IOError "Cannot specify both a redshift and a scale factor"))
    end;
  let halo_finder :=
    if String.eqb catalog_type "particles" then None else Some halo_finder in
  relevant_catalogs ←
    lift (identify_relevant_catalogs cfg (Some catalog_type) (Some simname) halo_finder);
  if Nat.eqb (length relevant_catalogs) 0 && String.eqb catalog_type "halos" then
    _ ← warn "Zero halo catalogs in cache match the input simname & halo-finder";
    mret (None, None)
  else if Nat.eqb (length relevant_catalogs) 0 && String.eqb catalog_type "particles" then
    _ ← warn "Zero particle catalogs in cache match the input simname";
    mret (None, None)
  else
    let first_scale_factor_index := len simname + 2 in
    let last_scale_factor_index := first_scale_factor_index + 6 in
    available_snapshots ←
      lift (comprehension
              (fun a => float_of (slice a (Some first_scale_factor_index)
                                          (Some last_scale_factor_index)))
              relevant_catalogs);
    idx_nearest_snapshot ←
      lift (argmin (map (fun a => Qabs (a - scale_factor)) available_snapshots));
    nearest_snapshot ← lift (list_getitem available_snapshots idx_nearest_snapshot);
    filename_of_nearest_snapshot ←
      lift (list_getitem relevant_catalogs idx_nearest_snapshot);
    let adiff_tol := scale_factor_difference_tol dflt in
    let adiff := Qabs (nearest_snapshot - scale_factor) in
    _ ← (if float_lt adiff_tol adiff
         then warn ("Closest match to desired snapshot has a scale factor of "
                    +:+ py_str nearest_snapshot)
         else mret tt);
    mret (Some filename_of_nearest_snapshot, Some nearest_snapshot).

End Locator.

(** ** [Catalog_Manager.numptcl_to_string] *)

(** The [while oom_tester==False] loop; the result is [ipower] at its exit.
    [fuel] bounds the number of iterations. The quotient [numptcl/powfactor]
    is exact here; it is the quotient of the code where the double division
    is exact, as for a digit times a power of ten below [2^53]. *)
Fixpoint oom_loop (fuel : nat) (numptcl : Q) (ipower : Z) : option Z :=
  match fuel with
  | O => None
  | S fuel' =>
      let powfactor := Qpower 10 ipower in
      let reduced_numptcl := np_round (numptcl / powfactor) in
      if reduced_numptcl <? 10 then Some (ipower + 1)
      else oom_loop fuel' numptcl (ipower + 1)
  end.

(** Iterations that suffice for [numptcl]: once [10 ** ipower] is at least
    [numptcl] the reduced number is at most 1. *)
Definition oom_fuel (numptcl : Q) : nat :=
  S (Z.to_nat (Z.log2_up (Z.max 1 (Qceiling numptcl)))).

Definition numptcl_to_string (numptcl : Q) : option string :=
  ipower ← oom_loop (oom_fuel numptcl) numptcl 0;
  let power := ipower - 1 in
  let powfactor := Qpower 10 power in
  let reduced_numptcl := np_round (numptcl / powfactor) in
  let ce := str_int power in
  let cp := str_int (Qfloor (inject_Z reduced_numptcl)) in
  Some (cp +:+ "e" +:+ ce).

(** ** [Catalog_Manager.__init__] *)

Record Catalog_Manager : Type := {
  default_halo_catalog_filename : string;
  default_particle_catalog_filename : string
}.

Definition Catalog_Manager_init (py_str : Q -> string) (dflt : defaults)
    : option Catalog_Manager :=
  numptcl_code ← numptcl_to_string (default_numptcl dflt);
  Some {|
    default_halo_catalog_filename :=
      default_simulation_name dflt +:+ "_a" +:+
      py_str (np_round_decimals (default_scale_factor dflt) 4) +:+ "_" +:+
      default_halo_finder dflt +:+ "_halos.fits";
    default_particle_catalog_filename :=
      default_simulation_name dflt +:+ "_a" +:+
      py_str (np_round_decimals (default_scale_factor dflt) 4) +:+ "_" +:+
      numptcl_code +:+ "_particles.fits"
  |}.

(** ** [Catalog_Manager.load_catalog] *)

(** The effects of the loader: opening a local file with the table reader,
    opening a URL, and writing a local file. *)
Inductive event : Type :=
| FitsOpen (path : string)
| UrlOpen (url : string)
| FileWrite (path : string).

Definition is_network (e : event) : bool :=
  match e with
  | UrlOpen _ => true
  | _ => false
  end.

Record world : Type := {
  files : gmap string string;
  trace : list event
}.

Definition log (e : event) (w : world) : world :=
  {| files := files w; trace := trace w ++ [e] |}.

(** A computation on the world that may raise. *)
Definition io (A : Type) : Type := world -> world * result A.

#[global] Instance io_bind : MBind io := fun A B k m w =>
  match m w with
  | (w', Return a) => k a w'
  | (w', Raise e) => (w', Raise e)
  end.
#[global] Instance io_ret : MRet io := fun A a w => (w, Return a).

Definition io_raise {A : Type} (e : exn) : io A := fun w => (w, Raise e).

Section Loader.

(** The table type of [astropy] and its reader on a file's content:
    [Table(fits.open(path)[1].data)], with whatever it raises. *)
Variable Table : Type.
Variable fits_table : string -> result Table.

(** The remote archive: the body served at each URL. *)
Variable remote : gmap string string.

(** [os.path.isfile(path)] *)
Definition isfile (path : string) : io bool :=
  fun w => (w, Return (bool_decide (is_Some (files w !! path)))).

(** [hdulist = fits.open(path); Table(hdulist[1].data)] *)
Definition read_table (path : string) : io Table :=
  fun w =>
    (log (FitsOpen path) w,
     match files w !! path with
     | Some content => fits_table content
     | None => Raise (IOError "No such file or directory")
     end).

(** [urllib2.urlopen(url)] and the [read()] of its response: the body
    served at the URL, or the [URLError] of [urlopen] where nothing is
    served. A response whose [read()] fails once the output file has been
    opened is not part of this model: what is served is read in full. *)
Definition urlopen_read (url : string) : io string :=
  fun w =>
    (log (UrlOpen url) w,
     match remote !! url with
     | Some body => Return body
     | None => Raise URLError
     end).

(** [output = open(path,'wb'); output.write(content); output.close()] *)
Definition write_file (path content : string) : io unit :=
  fun w =>
    ({| files := <[path := content]> (files w);
        trace := trace w ++ [FileWrite path] |},
     Return tt).

Definition load_catalog (self : Catalog_Manager) (cfg : configuration)
    (dirname : string) (filename : option string) (download_yn : bool)
    (url : string) : io (option Table) :=
  let filename :=
    match filename with
    | None => default_halo_catalog_filename self
    | Some filename => filename
    end in
  present ← isfile (path_join dirname filename);
  if present : bool then
    catalog ← read_table (path_join dirname filename);
    mret (Some catalog)
  else if negb download_yn then mret None
  else
    let catalog_type : option string :=
      if String.eqb filename (default_halo_catalog_filename self)
      then Some "halos" else None in
    catalog_type ←
      (if String.eqb filename (default_particle_catalog_filename self)
       then mret "particles"
       else io_raise (IOError
              "Input filename does not match one of the provided default catalogs"));
    let remote_filename := path_join url filename in
    body ← urlopen_read remote_filename;
    let output_directory := get_catalogs_dir cfg catalog_type in
    let output_filename := path_join output_directory filename in
    _ ← write_file output_filename body;
    catalog ← read_table output_filename;
    mret (Some catalog).

End Loader.

(** ** [Catalog_Manager.get_simulation_properties] *)

(** [Lbox], [particle_mass] and [softening]; [None] is Python's [None]. *)
Definition get_simulation_properties (simname : string)
    : option Q * option Q * option Q :=
  let '(Lbox, particle_mass, softening) := (@None Q, @None Q, @None Q) in
  if String.eqb simname "bolshoi"
  then (Some (250 # 1)%Q, Some (135000000 # 1)%Q, Some (1 # 1)%Q)
  else (Lbox, particle_mass, softening).

(** ** [Catalog_Manager.retrieve_catalog_filenames_from_url] *)

(** The exceptions of this method: its own [TypeError], and the [KeyError]
    of [a['href']] on an anchor without that attribute. *)
Inductive listing_exn : Type :=
| TypeError (msg : string)
| KeyError (key : string).

(** An anchor of the fetched page, [soup.find_all('a')]: its [href]
    attribute, when it has one. *)
Definition anchor : Type := option string.

(** [for a in soup.find_all('a'): link = a['href'];
     if keep(link): file_list.append(a['href'])] *)
Fixpoint collect_links (keep : string -> bool) (anchors : list anchor)
    (file_list : list string) : listing_exn + list string :=
  match anchors with
  | [] => inr file_list
  | a :: rest =>
      match a with
      | None => inl (KeyError "href")
      | Some link =>
          collect_links keep rest (if keep link then (file_list ++ [link])%list else file_list)
      end
  end.

(** [behroozi_web_location] is [defaults.behroozi_web_location]; [anchors]
    are the anchors of the page that [requests.get(url)] returned. *)
Definition retrieve_catalog_filenames_from_url (dflt : defaults)
    (behroozi_web_location : string) (anchors : list anchor)
    (url catalog_type : string) : listing_exn + list string :=
  let file_list : list string := [] in
  if String.eqb url behroozi_web_location then
    match
      (if String.eqb catalog_type "halo" || String.eqb catalog_type "halos"
       then inr "hlist_"
       else if String.eqb catalog_type "tree" || String.eqb catalog_type "trees"
       then inr "tree_"
       else inl (TypeError "Input catalog type must either be 'halos' or 'trees'"))
    with
    | inl e => inl e
    | inr expected_filename_prefix =>
        collect_links
          (fun link =>
             String.eqb (slice link (Some 0) (Some (len expected_filename_prefix)))
                        expected_filename_prefix)
          anchors file_list
    end
  else if String.eqb url (aph_web_location dflt) then
    let expected_filename_suffix :=
      if String.eqb catalog_type "halo" || String.eqb catalog_type "halos"
      then "halos.fits"
      else if String.eqb catalog_type "particle" || String.eqb catalog_type "particles"
      then "particles.fits"
      else ".fits" in
    collect_links
      (fun link =>
         String.eqb (slice link (Some (- len expected_filename_suffix)) None)
                    expected_filename_suffix)
      anchors file_list
  else
    collect_links (fun _ => true) anchors file_list.

(** ** [Catalog_Manager.download_all_default_catalogs] *)

(** A computation on the world that may warn and may raise: the world it
    leaves, the warnings it emitted, in order, and its outcome. *)
Definition session (A : Type) : Type := world -> world * list string * result A.

#[global] Instance session_bind : MBind session := fun A B k m w =>
  match m w with
  | (w', ws, Return a) => let '(w'', ws', r) := k a w' in (w'', (ws ++ ws')%list, r)
  | (w', ws, Raise e) => (w', ws, Raise e)
  end.
#[global] Instance session_ret : MRet session := fun A a w => (w, [], Return a).

Definition of_io {A : Type} (m : io A) : session A :=
  fun w => let '(w', r) := m w in (w', [], r).

Definition of_warned {A : Type} (m : warned A) : session A :=
  fun w => (w, warnings m, outcome m).

(** [warnings.warn(msg)] *)
Definition session_warn (msg : string) : session unit :=
  fun w => (w, [msg], Return tt).

Definition download_all_default_catalogs (remote : gmap string string)
    (self : Catalog_Manager) (cfg : configuration) (dflt : defaults) : session unit :=
  let url := aph_web_location dflt in
  let catalog_type := "halos" in
  let output_directory := get_catalogs_dir cfg catalog_type in
  let filename := default_halo_catalog_filename self in
  let remote_filename := path_join url filename in
  present ← of_io (isfile (path_join output_directory filename));
  _ ← (if negb present then
         _ ← session_warn "Downloading default halo catalog";
         body ← of_io (urlopen_read remote remote_filename);
         let output_filename := path_join output_directory filename in
         of_io (write_file output_filename body)
       else mret tt);
  let catalog_type := "particles" in
  let output_directory := get_catalogs_dir cfg catalog_type in
  let filename := default_particle_catalog_filename self in
  let remote_filename := path_join url filename in
  present ← of_io (isfile (path_join output_directory filename));
  if negb present then
    _ ← session_warn "Downloading default particle catalog";
    body ← of_io (urlopen_read remote remote_filename);
    let output_filename := path_join output_directory filename in
    of_io (write_file output_filename body)
  else mret tt.

(** One step of the bulk download, as a transition of the world: a file
    that exists is left alone; otherwise a warning, the fetch, and the write
    of what was fetched. *)
Definition fetch_if_absent (remote : gmap string string)
    (output_filename remote_filename message : string) : session unit :=
  fun w =>
    match files w !! output_filename with
    | Some _ => (w, [], Return tt)
    | None =>
        match remote !! remote_filename with
        | None => (log (UrlOpen remote_filename) w, [message], Raise URLError)
        | Some body =>
            ({| files := <[output_filename := body]> (files w);
                trace := (trace w ++ [UrlOpen remote_filename; FileWrite output_filename])%list |},
             [message], Return tt)
        end
    end.

(** ** [processed_snapshot] *)

Module Snapshot.

Record processed_snapshot : Type := {
  simulation_name : string;
  scale_factor : Q;
  halo_finder : string;
  download_yn : bool;
  catalog_manager : Catalog_Manager;
  Lbox : option Q;
  particle_mass : option Q;
  softening_length : option Q;
  halo_catalog_filename : string;
  halo_catalog_dirname : string;
  particle_catalog_filename : string;
  particle_catalog_dirname : string
}.

Section Facade.

Variable py_float : string -> option Q.
Variable py_str : Q -> string.
Variable remote : gmap string string.

(** The module [configuration] as it answers in a given world: the listing
    of the cache is read from the file system at each call. *)
Variable cache : world -> configuration.

Definition current_configuration : session configuration :=
  fun w => (w, [], Return (cache w)).

(** [if (filename==None) or (closest_scale_factor != self.scale_factor):]
    the default name replaces the match, and the defaults are downloaded
    when [download_yn] is true. *)
Definition exact_match_or_default (dflt : defaults) (catman : Catalog_Manager)
    (found : option string * option Q) (scale_factor : Q) (download_yn : bool)
    (default_filename : string) : session string :=
  let fallback : session string :=
    _ ← (if download_yn
         then cfg ← current_configuration;
              download_all_default_catalogs remote catman cfg dflt
         else mret tt);
    mret default_filename in
  match found with
  | (Some filename, Some closest_scale_factor) =>
      if Qeq_bool closest_scale_factor scale_factor then mret filename else fallback
  | _ => fallback
  end.

(** [processed_snapshot.__init__]; [catman] is the manager that
    [Catalog_Manager()] builds. *)
Definition processed_snapshot_init (dflt : defaults) (catman : Catalog_Manager)
    (simname : string) (scale_factor : Q) (halo_finder : string) (download_yn : bool)
    : session processed_snapshot :=
  let '(Lbox, mp, softening) := get_simulation_properties simname in
  cfg ← current_configuration;
  found ← of_warned (find_nearest_snapshot_in_cache py_float py_str cfg dflt "halos"
                       (Some scale_factor) None simname halo_finder);
  halo_catalog_filename ←
    exact_match_or_default dflt catman found scale_factor download_yn
      (default_halo_catalog_filename catman);
  cfg ← current_configuration;
  let halo_catalog_dirname := get_catalogs_dir cfg "halos" in
  found ← of_warned (find_nearest_snapshot_in_cache py_float py_str cfg dflt "particles"
                       (Some scale_factor) None simname halo_finder);
  particle_catalog_filename ←
    exact_match_or_default dflt catman found scale_factor download_yn
      (default_particle_catalog_filename catman);
  cfg ← current_configuration;
  let particle_catalog_dirname := get_catalogs_dir cfg "particles" in
  mret {| simulation_name := simname;
          scale_factor := scale_factor;
          halo_finder := halo_finder;
          download_yn := download_yn;
          catalog_manager := catman;
          Lbox := Lbox;
          particle_mass := mp;
          softening_length := softening;
          halo_catalog_filename := halo_catalog_filename;
          halo_catalog_dirname := halo_catalog_dirname;
          particle_catalog_filename := particle_catalog_filename;
          particle_catalog_dirname := particle_catalog_dirname |}.

Variable Table : Type.
Variable fits_table : string -> result Table.

(** The properties [halos] and [particles]: each access loads the catalog
    again. The URL is the default of [load_catalog]. *)
Definition halos (dflt : defaults) (self : processed_snapshot) : io (option Table) :=
  fun w =>
    load_catalog Table fits_table remote (catalog_manager self) (cache w)
      (halo_catalog_dirname self) (Some (halo_catalog_filename self))
      (download_yn self) (aph_web_location dflt) w.

Definition particles (dflt : defaults) (self : processed_snapshot) : io (option Table) :=
  fun w =>
    load_catalog Table fits_table remote (catalog_manager self) (cache w)
      (particle_catalog_dirname self) (Some (particle_catalog_filename self))
      (download_yn self) (aph_web_location dflt) w.

End Facade.

End Snapshot.

(** ** Concrete collaborators for the examples *)

Definition digit_value (c : ascii) : option Z :=
  let n := Z.of_nat (nat_of_ascii c) in
  if (48 <=? n) && (n <=? 57) then Some (n - 48) else None.

(** Reads the leading decimal digits of [s]: their value, their number and
    what follows them. *)
Fixpoint read_digits (s : string) (acc : Z) (count : nat) : Z * nat * string :=
  match s with
  | String c rest =>
      match digit_value c with
      | Some d => read_digits rest (10 * acc + d) (S count)
      | None => (acc, count, s)
      end
  | EmptyString => (acc, count, s)
  end.

(** [float(s)] on the unsigned decimal literals of the file names
    (["0.7000"], ["1."], [".5"], ["7"]); any other string is refused. *)
Definition decimal_float (s : string) : option Q :=
  let '(ip, ni, rest) := read_digits s 0 0 in
  match rest with
  | EmptyString => if Nat.ltb 0 ni then Some (inject_Z ip) else None
  | String c frac =>
      if Ascii.eqb c "."%char then
        let '(fp, nf, rest') := read_digits frac 0 0 in
        match rest' with
        | EmptyString =>
            if Nat.ltb 0 (ni + nf)
            then Some (Qred (Qmake (ip * 10 ^ Z.of_nat nf + fp) (Z.to_pos (10 ^ Z.of_nat nf))))
            else None
        | _ => None
        end
      else None
  end.

Fixpoint strip_trailing_zeros (s : string) : string :=
  match s with
  | EmptyString => EmptyString
  | String c rest =>
      let rest' := strip_trailing_zeros rest in
      if String.eqb rest' "" && Ascii.eqb c "0"%char then EmptyString
      else String c rest'
  end.

(** [str(x)] on the floats of the examples, which have at most four
    decimals: the integer part, a point, and the decimals without trailing
    zeros (["0.7"], ["1.0003"], ["1.0"]). *)
Definition decimal_str (x : Q) : string :=
  let n := np_round (x * 10000) in
  let m := Z.abs n in
  let frac := strip_trailing_zeros (substring 1 4 (str_int (10000 + m mod 10000))) in
  (if n <? 0 then "-" else "") +:+ str_int (m / 10000) +:+ "." +:+
  (if String.eqb frac "" then "0" else frac).

Definition example_listing : list string :=
  [ "bolshoi_a0.5000_rockstar_halos.fits";
    "bolshoi_a0.7000_bdm_halos.fits";
    "bolshoi_a0.7000_rockstar_halos.fits";
    "bolshoi_a0.9000_rockstar_halos.fits";
    "bolshoi_a1.0003_2e5_particles.fits";
    "README" ].

Definition example_configuration : configuration :=
  {| list_of_catalogs_in_cache := fun _ => example_listing;
     get_catalogs_dir := fun catalog_type => "/cache/" +:+ catalog_type |}.

Definition example_defaults : defaults :=
  {| default_simulation_name := "bolshoi";
     default_scale_factor := 10003 # 10000;
     default_halo_finder := "rockstar";
     default_numptcl := 200000 # 1;
     scale_factor_difference_tol := 5 # 100;
     halo_catalog_dirname := "/cache/halos";
     aph_web_location := "http://archive.example/catalogs" |}.

(** A cache that holds one short name beside a catalog. *)
Definition short_name_configuration : configuration :=
  {| list_of_catalogs_in_cache :=
       fun _ => ["abc"; "bolshoi_a0.7000_rockstar_halos.fits"];
     get_catalogs_dir := fun catalog_type => "/cache/" +:+ catalog_type |}.

(** A cache that holds a file named as the simulation itself. *)
Definition bare_name_configuration : configuration :=
  {| list_of_catalogs_in_cache :=
       fun _ => ["bolshoi_a0.7000_rockstar_halos.fits"; "bolshoi"];
     get_catalogs_dir := fun catalog_type => "/cache/" +:+ catalog_type |}.

(** A cache whose names follow the convention, one of them with a scale
    factor that is not a number. *)
Definition malformed_configuration : configuration :=
  {| list_of_catalogs_in_cache :=
       fun _ => ["bolshoi_a0.7000_rockstar_halos.fits";
                 "bolshoi_aXXXXXX_rockstar_halos.fits"];
     get_catalogs_dir := fun catalog_type => "/cache/" +:+ catalog_type |}.

Definition example_manager : Catalog_Manager :=
  {| default_halo_catalog_filename := "bolshoi_a1.0003_rockstar_halos.fits";
     default_particle_catalog_filename := "bolshoi_a1.0003_2e5_particles.fits" |}.

(** A reader that accepts every file and returns its content. *)
Definition example_reader (content : string) : result string := Return content.

Definition example_remote : gmap string string :=
  {[ "http://archive.example/catalogs/bolshoi_a1.0003_rockstar_halos.fits" := "halo rows";
     "http://archive.example/catalogs/bolshoi_a1.0003_2e5_particles.fits" := "particle rows" ]}.

(** A world with one cached halo catalog and no effect recorded yet. *)
Definition example_world : world :=
  {| files := {[ "/cache/halos/bolshoi_a0.7000_rockstar_halos.fits" := "cached halo rows" ]};
     trace := [] |}.

(** The file name a call to [load_catalog] asks for. *)
Definition requested_filename (self : Catalog_Manager) (filename : option string) : string :=
  match filename with
  | None => default_halo_catalog_filename self
  | Some filename => filename
  end.

(** What [load_catalog] returns when it reads a file with this content:
    the table of the reader, or the exception of the reader. *)
Definition loaded {Table : Type} (fits_table : string -> result Table) (content : string)
    : result (option Table) :=
  match fits_table content with
  | Return catalog => Return (Some catalog)
  | Raise e => Raise e
  end.

(** A cache that holds the two default catalogs. *)
Definition default_cache_configuration : configuration :=
  {| list_of_catalogs_in_cache :=
       fun _ => ["bolshoi_a1.0003_rockstar_halos.fits"; "bolshoi_a1.0003_2e5_particles.fits"];
     get_catalogs_dir := fun catalog_type => "/cache/" +:+ catalog_type |}.

(** A world in which both default catalogs are cached. *)
Definition default_cache_world : world :=
  {| files := {[ "/cache/halos/bolshoi_a1.0003_rockstar_halos.fits" := "halo rows";
                 "/cache/particles/bolshoi_a1.0003_2e5_particles.fits" := "particle rows" ]};
     trace := [] |}.

(** A remote archive that lacks the default halo catalog. *)
Definition particle_only_remote : gmap string string :=
  {[ "http://archive.example/catalogs/bolshoi_a1.0003_2e5_particles.fits" := "particle rows" ]}.

(** The address of the SLAC archive and the links of an index page. *)
Definition example_behroozi_web_location : string :=
  "http://www.slac.stanford.edu/~behroozi/Bolshoi_Catalogs/".

Definition example_links : list string :=
  [ "hlist_1.00030.list"; "tree_0_0_0.dat"; "bolshoi_a1.0003_rockstar_halos.fits";
    "bolshoi_a1.0003_2e5_particles.fits"; "index.html" ].

(** The module [configuration] with a listing that does not change. *)
Definition example_cache (w : world) : configuration := example_configuration.

Definition default_cache (w : world) : configuration := default_cache_configuration.

(** ** The three filters, as the specification words them *)

(** [suf] is a suffix of [s]: it is [s] itself or a suffix of the tail of [s]. *)
Fixpoint is_suffix (suf s : string) : bool :=
  String.eqb suf s ||
  match s with
  | String _ rest => is_suffix suf rest
  | EmptyString => false
  end.

(** Kind suffix: the name ends with the kind followed by [".fits"]. *)
Definition kind_suffix (catalog_type c : string) : bool :=
  is_suffix (catalog_type +:+ ".fits") c.

(** Simname prefix followed by an underscore. *)
Definition simname_prefix (simname c : string) : bool :=
  String.prefix (simname +:+ "_") c.

(** Halo-finder substring at the fixed trailing offset of 11 characters. *)
Definition halo_finder_at_offset (halo_finder c : string) : bool :=
  String.eqb (slice c (Some (-11 - len halo_finder)) (Some (-11))) halo_finder.

(** An omitted filter passes every name. *)
Definition supplied (p : string -> string -> bool) (arg : option string) (c : string) : bool :=
  match arg with
  | Some a => p a c
  | None => true
  end.

Definition passes_all (catalog_type simname halo_finder : option string) (c : string) : bool :=
  supplied kind_suffix catalog_type c &&
  supplied simname_prefix simname c &&
  supplied halo_finder_at_offset halo_finder c.

(** ** The lookup, as the specification words it *)

(** The halo-finder filter of a lookup: none for particle catalogs. *)
Definition lookup_halo_finder (catalog_type halo_finder : string) : option string :=
  if String.eqb (fix_pluralization catalog_type) "particles" then None
  else Some halo_finder.

(** The cached names that pass the kind, simname and halo-finder filters
    of a lookup. *)
Definition candidates (cfg : configuration) (catalog_type simname halo_finder : string)
    : result (list string) :=
  identify_relevant_catalogs cfg (Some (fix_pluralization catalog_type)) (Some simname)
    (lookup_halo_finder catalog_type halo_finder).

(** The substring at positions [len(simname)+2] through [len(simname)+8]. *)
Definition scale_factor_substring (simname c : string) : string :=
  slice c (Some (len simname + 2)) (Some (len simname + 8)).

(** The scale factor decoded from a name. *)
Definition decoded_scale_factor (py_float : string -> option Q) (simname c : string)
    : option Q :=
  py_float (scale_factor_substring simname c).

(** What a lookup may emit: at most one warning, and none when it raises. *)
Definition quiet_on_error {A : Type} (m : warned A) : Prop :=
  (length (warnings m) <= 1)%nat /\
  forall e, outcome m = Raise e -> warnings m = [].

(** The match of a lookup is exact when it names a file whose scale factor
    equals the requested one. *)
Definition exact_match (found : option string * option Q) (scale_factor : Q)
    : option string :=
  match found with
  | (Some filename, Some closest_scale_factor) =>
      if Qeq_bool closest_scale_factor scale_factor then Some filename else None
  | _ => None
  end.

(** ** IEEE double precision: the floats of Python and numpy *)

Module Binary64.

Definition prec : Z := 53.
Definition emax : Z := 1024.

(** A double: a signed zero, an infinity, NaN, or [(-1)^s * m * 2^e]. *)
Abbreviation float := spec_float (only parsing).

(** The double nearest to an integer, and the rounded operations. *)
Definition of_Z (n : Z) : float := binary_normalize prec emax n 0 false.
Definition add (x y : float) : float := SFadd prec emax x y.
Definition sub (x y : float) : float := SFsub prec emax x y.
Definition div (x y : float) : float := SFdiv prec emax x y.

(** [x > y], [x >= y] and [x == y]: false when an operand is NaN. *)
Definition gt (x y : float) : bool := SFltb y x.
Definition ge (x y : float) : bool := SFleb y x.
Definition eqb (x y : float) : bool := SFeqb x y.

Definition isnan (x : float) : bool :=
  match x with
  | S754_nan => true
  | _ => false
  end.


(** [x / y] on Python floats: a zero divisor raises [ZeroDivisionError]. *)
Definition float_div (x y : float) : result float :=
  if eqb y (of_Z 0) then Raise ZeroDivisionError else Return (div x y).

(** The scan of [ndarray.argmin] on doubles, [DOUBLE_argmin] of numpy:
    an element replaces the running minimum [mp] when [ip[i] >= mp] is
    false, and the scan stops at once when the new minimum is NaN. *)
Fixpoint argmin_from (min_ind : nat) (mp : float) (i : nat) (ip : list float) : nat :=
  match ip with
  | [] => min_ind
  | x :: rest =>
      if negb (ge x mp) then
        if isnan x then i else argmin_from i x (S i) rest
      else argmin_from min_ind mp (S i) rest
  end.

(** [a.argmin()]: raises [ValueError] on an empty array; a NaN in first
    place ends the scan at once. *)
Definition argmin (l : list float) : result nat :=
  match l with
  | [] => Raise ValueError
  | mp :: rest => Return (if isnan mp then 0%nat else argmin_from 0 mp 1 rest)
  end.

Section Locator.

(** The builtins [float(s)] ([None] is its [ValueError]) and [str(x)], and
    [defaults.scale_factor_difference_tol], a float. *)
Variable py_float : string -> option float.
Variable py_str : float -> string.
Variable scale_factor_difference_tol : float.

Definition float_of (s : string) : result float :=
  match py_float s with
  | Some x => Return x
  | None => Raise ValueError
  end.

Definition find_nearest_snapshot_in_cache (cfg : configuration)
    (catalog_type : string) (scale_factor redshift : option float)
    (simname halo_finder : string) : warned (option string * option float) :=
  let catalog_type := fix_pluralization catalog_type in
  scale_factor ←
    match scale_factor, redshift with
    | None, None =>
        lift (Raise (IOError "Must specify either a redshift or a scale factor"))
    | None, Some redshift => lift (float_div (of_Z 1) (add (of_Z 1) redshift))
    | Some scale_factor, None => mret scale_factor
    | Some _, Some _ =>
        lift (Raise (IOError "Cannot specify both a redshift and a scale factor"))
    end;
  let halo_finder :=
    if String.eqb catalog_type "particles" then None else Some halo_finder in
  relevant_catalogs ←
    lift (identify_relevant_catalogs cfg (Some catalog_type) (Some simname) halo_finder);
  if Nat.eqb (length relevant_catalogs) 0 && String.eqb catalog_type "halos" then
    _ ← warn "Zero halo catalogs in cache match the input simname & halo-finder";
    mret (None, None)
  else if Nat.eqb (length relevant_catalogs) 0 && String.eqb catalog_type "particles" then
    _ ← warn "Zero particle catalogs in cache match the input simname";
    mret (None, None)
  else
    let first_scale_factor_index := len simname + 2 in
    let last_scale_factor_index := first_scale_factor_index + 6 in
    available_snapshots ←
      lift (comprehension
              (fun a => float_of (slice a (Some first_scale_factor_index)
                                          (Some last_scale_factor_index)))
              relevant_catalogs);
    idx_nearest_snapshot ←
      lift (argmin (map (fun a => SFabs (sub a scale_factor)) available_snapshots));
    nearest_snapshot ← lift (list_getitem available_snapshots idx_nearest_snapshot);
    filename_of_nearest_snapshot ←
      lift (list_getitem relevant_catalogs idx_nearest_snapshot);
    let adiff_tol := scale_factor_difference_tol in
    let adiff := SFabs (sub nearest_snapshot scale_factor) in
    _ ← (if gt adiff adiff_tol
         then warn ("Closest match to desired snapshot has a scale factor of "
                    +:+ py_str nearest_snapshot)
         else mret tt);
    mret (Some filename_of_nearest_snapshot, Some nearest_snapshot).

End Locator.

(** The scale factor decoded from a name, and the difference that the
    lookup computes for it: [np.abs(a - scale_factor)], rounded once. *)
Definition decoded_scale_factor (py_float : string -> option float) (simname c : string)
    : option float :=
  py_float (scale_factor_substring simname c).

Definition difference (a scale_factor : float) : float := SFabs (sub a scale_factor).



(** The double nearest to [n / 10^k]; both operands of the division are
    doubles when [|n| < 2^53] and [k <= 22], and the quotient is rounded
    once. *)
Definition of_decimal (n k : Z) : float := div (of_Z n) (of_Z (10 ^ k)).

(** Leading blanks are skipped by [float]. *)
Fixpoint lstrip (s : string) : string :=
  match s with
  | String c rest => if Ascii.eqb c " "%char then lstrip rest else s
  | EmptyString => s
  end.

(** [float(s)] on the strings of the examples: after leading blanks,
    ["nan"] and ["inf"] are the special values and an unsigned decimal
    literal (["0.7000"], ["1."], [".5"], ["7"]) is the nearest double; any
    other string is refused. *)
Definition decimal_float (s : string) : option float :=
  let s := lstrip s in
  if String.eqb s "nan" then Some S754_nan
  else if String.eqb s "inf" then Some (S754_infinity false)
  else
    let '(ip, ni, rest) := read_digits s 0 0 in
    match rest with
    | EmptyString => if Nat.ltb 0 ni then Some (of_Z ip) else None
    | String c frac =>
        if Ascii.eqb c "."%char then
          let '(fp, nf, rest') := read_digits frac 0 0 in
          match rest' with
          | EmptyString =>
              if Nat.ltb 0 (ni + nf)
              then Some (of_decimal (ip * 10 ^ Z.of_nat nf + fp) (Z.of_nat nf))
              else None
          | _ => None
          end
        else None
    end.

(** The value of a finite double as a rational. *)
Definition to_Q (x : float) : Q :=
  match x with
  | S754_finite s m e => (inject_Z (cond_Zopp s (Zpos m)) * Qpower 2 e)%Q
  | _ => 0%Q
  end.

(** [str(x)] on the doubles of the examples, which are nearest to a number
    of at most four decimals: the rational [decimal_str] above, at the value
    of the double. *)
Definition decimal_str (x : float) : string := decimal_str (to_Q x).

(** A cache with two snapshots whose computed differences from 0.5 are the
    same double. *)
Definition tie_configuration : configuration :=
  {| list_of_catalogs_in_cache :=
       fun _ => ["bolshoi_a0.1500_rockstar_halos.fits";
                 "bolshoi_a0.8500_rockstar_halos.fits"];
     get_catalogs_dir := fun catalog_type => "/cache/" +:+ catalog_type |}.

(** A cache with a name whose scale-factor substring reads as NaN. *)
Definition nan_configuration : configuration :=
  {| list_of_catalogs_in_cache :=
       fun _ => ["bolshoi_a0.7000_rockstar_halos.fits";
                 "bolshoi_a   nan_rockstar_halos.fits"];
     get_catalogs_dir := fun catalog_type => "/cache/" +:+ catalog_type |}.

End Binary64.

(** * Properties *)

Local Open Scope list_scope.

(** ** Strings and slices *)

Lemma append_cons (a : ascii) (s t : string) :
  String a s +:+ t = String a (s +:+ t).
Proof. reflexivity. Qed.

Lemma append_nil (t : string) : "" +:+ t = t.
Proof. reflexivity. Qed.

Lemma length_append (s t : string) :
  String.length (s +:+ t) = (String.length s + String.length t)%nat.
Proof.
  induction s as [|a s IH]; [reflexivity|].
  rewrite append_cons. simpl. now rewrite IH.
Qed.

Lemma append_assoc (s t u : string) : (s +:+ t) +:+ u = s +:+ (t +:+ u).
Proof.
  induction s as [|a s IH]; [reflexivity|].
  rewrite !append_cons. f_equal. exact IH.
Qed.

Lemma eqb_length_neq (s t : string) :
  String.length s <> String.length t -> String.eqb s t = false.
Proof. intros H. apply String.eqb_neq. intros ->. now apply H. Qed.

Lemma substring_all (s : string) : substring 0 (String.length s) s = s.
Proof. induction s as [|a s IH]; simpl; [reflexivity | now rewrite IH]. Qed.

Lemma substring_0_min (s : string) (n : nat) :
  substring 0 (Nat.min n (String.length s)) s = substring 0 n s.
Proof.
  revert n. induction s as [|a s IH]; intros [|n]; simpl; try reflexivity.
  now rewrite IH.
Qed.

Lemma get_ge (s : string) (n : nat) :
  (String.length s <= n)%nat -> String.get n s = None.
Proof.
  revert n. induction s as [|a s IH]; intros n H; simpl in *.
  - reflexivity.
  - destruct n as [|n]; [lia|]. apply IH. lia.
Qed.

Lemma get_lt (s : string) (n : nat) :
  (n < String.length s)%nat -> exists ch, String.get n s = Some ch.
Proof.
  revert n. induction s as [|a s IH]; intros n H; simpl in *; [lia|].
  destruct n as [|n]; [now exists a|]. apply IH. lia.
Qed.

Lemma len_nonneg (s : string) : 0 <= len s.
Proof. unfold len. lia. Qed.

(** [c[0:len(s)]] is the prefix of [c] of the length of [s]. *)
Lemma slice_prefix (c s : string) :
  slice c (Some 0) (Some (len s)) = substring 0 (String.length s) c.
Proof.
  unfold slice, slice_bound. pose proof (len_nonneg s) as Hs.
  pose proof (len_nonneg c) as Hc.
  destruct (Z.ltb_spec 0 0) as [?|_]; [lia|].
  destruct (Z.ltb_spec (len s) 0) as [?|_]; [lia|].
  replace (Z.to_nat (Z.min 0 (len c))) with 0%nat by lia.
  replace (Z.to_nat (Z.min (len s) (len c) - Z.min 0 (len c)))
    with (Nat.min (String.length s) (String.length c)) by (unfold len in *; lia).
  apply substring_0_min.
Qed.

(** [c[len(s)]] is the character after that prefix, when there is one. *)
Lemma getitem_len (c s : string) :
  getitem c (len s) =
  match String.get (String.length s) c with
  | Some ch => Return ch
  | None => Raise IndexError
  end.
Proof.
  unfold getitem. pose proof (len_nonneg s) as Hs.
  destruct (Z.ltb_spec (len s) 0) as [?|_]; [lia|].
  destruct (Z.ltb_spec (len s) 0) as [?|_]; [lia|]. simpl.
  unfold len in *. rewrite Nat2Z.id.
  destruct (Z.leb_spec (Z.of_nat (String.length c)) (Z.of_nat (String.length s))) as [H|H].
  - rewrite get_ge by lia. reflexivity.
  - reflexivity.
Qed.

(** [c[-len(suf):]] equals [suf] exactly when [suf] is a suffix of [c]. *)
Lemma slice_suffix (suf c : string) :
  suf <> "" ->
  String.eqb (slice c (Some (- len suf)) None) suf = is_suffix suf c.
Proof.
  intros Hne.
  assert (Hpos : (0 < String.length suf)%nat) by (destruct suf; simpl; [congruence | lia]).
  assert (Hslice : slice c (Some (- len suf)) None =
                   substring (String.length c - String.length suf)
                             (String.length c - (String.length c - String.length suf)) c).
  { unfold slice, slice_bound, len.
    destruct (Z.ltb_spec (- Z.of_nat (String.length suf)) 0) as [_|?]; [|lia].
    f_equal; lia. }
  rewrite Hslice. clear Hslice Hne.
  induction c as [|a c IH].
  - cbn [is_suffix String.length substring Nat.sub]. rewrite orb_false_r.
    apply String.eqb_sym.
  - cbn [is_suffix]. destruct (le_lt_dec (String.length suf) (String.length c)) as [Hle|Hgt].
    + rewrite (eqb_length_neq suf (String a c)) by (simpl; lia). simpl orb.
      rewrite <- IH. cbn [String.length].
      replace (S (String.length c) - String.length suf)%nat
        with (S (String.length c - String.length suf)) by lia.
      cbn [substring]. first [reflexivity | do 2 f_equal; lia].
    + rewrite <- IH.
      replace (String.length c - String.length suf)%nat with 0%nat by lia.
      replace (String.length (String a c) - String.length suf)%nat with 0%nat
        by (simpl; lia).
      rewrite !Nat.sub_0_r, !substring_all.
      rewrite (eqb_length_neq c suf) by lia.
      rewrite orb_false_r. apply String.eqb_sym.
Qed.

(** ** The filters of [identify_relevant_catalogs] *)

Lemma catalog_type_mismatch_spec (catalog_type c : string) :
  catalog_type_mismatch catalog_type c = Return (negb (kind_suffix catalog_type c)).
Proof.
  unfold catalog_type_mismatch, kind_suffix.
  replace (- len catalog_type - 5) with (- len (catalog_type +:+ ".fits"))
    by (unfold len; rewrite length_append; simpl; lia).
  rewrite slice_suffix; [reflexivity|].
  intros H. apply (f_equal String.length) in H.
  rewrite length_append in H. simpl in H. lia.
Qed.

Lemma halo_finder_mismatch_spec (halo_finder c : string) :
  halo_finder_mismatch halo_finder c = Return (negb (halo_finder_at_offset halo_finder c)).
Proof. reflexivity. Qed.

(** The simname test raises exactly on the name that is the simname itself:
    every other name either fails the prefix comparison, and [or] stops
    there, or is long enough to be indexed. *)
Lemma simname_mismatch_spec (simname c : string) :
  simname_mismatch simname c =
  if String.eqb c simname then Raise IndexError
  else Return (negb (simname_prefix simname c)).
Proof.
  unfold simname_mismatch, simname_prefix. rewrite slice_prefix, getitem_len.
  revert c. induction simname as [|x sn IH]; intros c.
  - destruct c as [|a c]; [reflexivity|].
    rewrite append_nil.
    cbn [String.length substring String.get String.eqb String.prefix negb].
    unfold mbind, result_bind, Py.bind.
    destruct (Ascii.eqb_spec a "_"%char) as [->|Hne].
    + destruct (ascii_dec "_" "_") as [_|Hn]; [|congruence].
      now destruct c.
    + destruct (ascii_dec "_" a) as [He|_]; [congruence|]. reflexivity.
  - destruct c as [|a c]; [reflexivity|].
    rewrite append_cons. cbn [String.length substring String.get String.eqb String.prefix].
    specialize (IH c).
    destruct (Ascii.eqb_spec a x) as [->|Hne].
    + destruct (ascii_dec x x) as [_|Hn]; [|congruence]. exact IH.
    + destruct (ascii_dec x a) as [He|_]; [congruence|]. reflexivity.
Qed.

(** A loop whose test never raises clears the mask at every index whose
    name fails [p], and only there. *)
Lemma mask_loop_total (cond : string -> result bool) (p : string -> bool)
    (cs : list string) :
  (forall c, In c cs -> cond c = Return (negb (p c))) ->
  forall pre mask : list bool,
    length mask = length cs ->
    mask_loop cond (length pre) cs (pre ++ mask) =
    Return (pre ++ zip_with (fun c b => b && p c) cs mask).
Proof.
  induction cs as [|c cs IH]; intros Hcond pre mask Hlen.
  - destruct mask; [reflexivity | discriminate].
  - destruct mask as [|b mask]; [discriminate|].
    cbn [mask_loop zip_with]. rewrite (Hcond c) by (now left).
    unfold mbind, result_bind, Py.bind.
    assert (Hins : (if negb (p c) then <[length pre := false]> (pre ++ b :: mask)
                    else pre ++ b :: mask) = (pre ++ [b && p c]) ++ mask).
    { rewrite <- app_assoc. cbn [app]. destruct (p c); cbn [negb].
      - now rewrite andb_true_r.
      - rewrite andb_false_r, insert_app_r_alt by lia.
        now rewrite Nat.sub_diag. }
    rewrite Hins.
    replace (S (length pre)) with (length (pre ++ [b && p c]))
      by (rewrite length_app; simpl; lia).
    rewrite IH.
    + now rewrite <- app_assoc.
    + intros c' Hc'. apply Hcond. now right.
    + simpl in Hlen. lia.
Qed.

Lemma mask_pass (cond : string -> result bool) (p q : string -> bool)
    (cs : list string) :
  (forall c, In c cs -> cond c = Return (negb (p c))) ->
  mask_loop cond 0 cs (map q cs) = Return (map (fun c => q c && p c) cs).
Proof.
  intros Hcond.
  pose proof (mask_loop_total cond p cs Hcond [] (map q cs) (length_map q cs)) as H.
  cbn [length app] in H. rewrite H. f_equal. clear Hcond H.
  induction cs as [|c cs IH]; [reflexivity|]. cbn. now rewrite IH.
Qed.

Lemma repeat_true_map (cs : list string) :
  repeat true (length cs) = map (fun _ => true) cs.
Proof. induction cs as [|c cs IH]; [reflexivity|]. cbn. now rewrite IH. Qed.

Lemma select_map_filter (p : string -> bool) (cs : list string) :
  select cs (map p cs) = List.filter p cs.
Proof.
  induction cs as [|c cs IH]; [reflexivity|]. cbn.
  destruct (p c); now rewrite IH.
Qed.

(** As soon as the simname is one of the listed names the simname loop
    raises, whatever the other names are. *)
Lemma mask_loop_simname_raise (simname : string) (cs : list string) :
  In simname cs ->
  forall ii mask, mask_loop (simname_mismatch simname) ii cs mask = Raise IndexError.
Proof.
  induction cs as [|c cs IH]; intros Hin ii mask; [destruct Hin|].
  cbn [mask_loop]. rewrite simname_mismatch_spec.
  destruct (String.eqb_spec c simname) as [->|Hne]; [reflexivity|].
  unfold mbind, result_bind, Py.bind. apply IH.
  destruct Hin as [->|Hin]; [congruence | exact Hin].
Qed.

Lemma existsb_eqb_In (s : string) (cs : list string) :
  existsb (String.eqb s) cs = true <-> In s cs.
Proof.
  rewrite existsb_exists. split.
  - intros (c & Hc & He). apply String.eqb_eq in He. now subst.
  - intros H. exists s. split; [exact H | apply String.eqb_refl].
Qed.

(** The whole function: it raises [IndexError] when the simname is itself
    a listed name, and otherwise returns the listed names that pass the
    three filters, in listing order. *)
Lemma identify_relevant_catalogs_eq (cfg : configuration)
    (catalog_type simname halo_finder : option string) :
  identify_relevant_catalogs cfg catalog_type simname halo_finder =
  let catalog_type := fix_pluralization <$> catalog_type in
  let available_catalogs := list_of_catalogs_in_cache cfg catalog_type in
  if match simname with
     | Some sn => existsb (String.eqb sn) available_catalogs
     | None => false
     end
  then Raise IndexError
  else Return (List.filter (passes_all catalog_type simname halo_finder)
                           available_catalogs).
Proof.
  unfold identify_relevant_catalogs. cbv zeta.
  set (ct := fix_pluralization <$> catalog_type).
  set (cs := list_of_catalogs_in_cache cfg ct).
  rewrite repeat_true_map.
  assert (H1 : match ct with
               | Some c => mask_loop (catalog_type_mismatch c) 0 cs (map (fun _ => true) cs)
               | None => Return (map (fun _ => true) cs)
               end = Return (map (supplied kind_suffix ct) cs)).
  { destruct ct as [c|]; [|reflexivity].
    rewrite (mask_pass _ (kind_suffix c)); [reflexivity|].
    intros; apply catalog_type_mismatch_spec. }
  rewrite H1. clear H1. unfold mbind at 1, result_bind at 1, Py.bind at 1.
  destruct simname as [sn|].
  - destruct (existsb (String.eqb sn) cs) eqn:Hex.
    + apply existsb_eqb_In in Hex.
      now rewrite mask_loop_simname_raise.
    + assert (Hnot : ~ In sn cs).
      { intros Hin. apply existsb_eqb_In in Hin. congruence. }
      rewrite (mask_pass _ (simname_prefix sn)).
      2:{ intros c Hc. rewrite simname_mismatch_spec.
          destruct (String.eqb_spec c sn) as [->|_]; [contradiction | reflexivity]. }
      unfold mbind at 1, result_bind at 1, Py.bind at 1.
      destruct halo_finder as [hf|].
      * rewrite (mask_pass _ (halo_finder_at_offset hf))
          by (intros; apply halo_finder_mismatch_spec).
        unfold mbind, result_bind, Py.bind. f_equal.
        apply select_map_filter.
      * unfold mbind, result_bind, Py.bind. f_equal.
        rewrite select_map_filter. apply filter_ext. intros c.
        unfold passes_all. cbn [supplied]. now rewrite andb_true_r.
  - unfold mbind at 1, result_bind at 1, Py.bind at 1.
    destruct halo_finder as [hf|].
    + rewrite (mask_pass _ (halo_finder_at_offset hf))
        by (intros; apply halo_finder_mismatch_spec).
      unfold mbind, result_bind, Py.bind. f_equal.
      rewrite select_map_filter. apply filter_ext. intros c.
      unfold passes_all. cbn [supplied]. now rewrite andb_true_r.
    + unfold mbind, result_bind, Py.bind. f_equal.
      rewrite select_map_filter. apply filter_ext. intros c.
      unfold passes_all. cbn [supplied]. now rewrite !andb_true_r.
Qed.

(** ** [argmin] and list comprehensions *)






Lemma comprehension_total {A B : Type} (f : A -> result B) (l : list A) :
  (forall a, In a l -> exists b, f a = Return b) ->
  exists bs, comprehension f l = Return bs.
Proof.
  induction l as [|a l IH]; intros H; cbn [comprehension].
  - now exists [].
  - destruct (H a) as [b ->]; [now left|].
    destruct IH as [bs ->]; [intros; apply H; now right|].
    now exists (b :: bs).
Qed.

(** ** The monad of warnings *)

Lemma warned_bind_return {A B : Type} (a : A) (k : A -> warned B) :
  lift (Return a) ≫= k = k a.
Proof.
  unfold mbind, warned_bind, wbind, lift. cbn. now destruct (k a).
Qed.

Lemma warned_bind_mret {A B : Type} (a : A) (k : A -> warned B) :
  mret a ≫= k = k a.
Proof. apply warned_bind_return. Qed.

Lemma warned_bind_raise {A B : Type} (e : exn) (k : A -> warned B) :
  lift (Raise e) ≫= k = lift (Raise e).
Proof. reflexivity. Qed.

Lemma warned_bind_warn {B : Type} (msg : string) (k : unit -> warned B) :
  warn msg ≫= k = Warned (msg :: warnings (k tt)) (outcome (k tt)).
Proof. reflexivity. Qed.

(** ** [find_nearest_snapshot_in_cache] *)

Section LocatorFacts.

Variable py_float : string -> option Q.
Variable py_str : Q -> string.
Variable cfg : configuration.
Variable dflt : defaults.

Local Abbreviation find_nearest :=
  (find_nearest_snapshot_in_cache py_float py_str cfg dflt).

(** A lookup by redshift is the lookup by the scale factor [1/(1+z)],
    unless [1+z] is zero, where the division raises. *)
Lemma find_nearest_redshift (catalog_type : string) (z : Q) (simname halo_finder : string) :
  find_nearest catalog_type None (Some z) simname halo_finder =
  if Qeq_bool (1 + z) 0 then Warned [] (Raise ZeroDivisionError)
  else find_nearest catalog_type (Some (1 / (1 + z))%Q) None simname halo_finder.
Proof.
  unfold find_nearest_snapshot_in_cache, float_div. cbv zeta.
  destruct (Qeq_bool (1 + z) 0).
  - now rewrite warned_bind_raise.
  - now rewrite warned_bind_return, warned_bind_mret.
Qed.



End LocatorFacts.

(** ** Claims on [identify_relevant_catalogs] *)

(** C5, as amended. The filter of [identify_relevant_catalogs] is the
    conjunction of the three predicates, provided that no listed name is the
    supplied simname itself: then the call returns the listing filtered by
    [passes_all], so a name is included exactly when it is listed and passes
    every supplied predicate: kind suffix, simname prefix followed by an
    underscore, halo-finder substring at the trailing offset. In particular,
    in every cache that lists ["bolshoi_a0.7000_rockstar_halos.fits"] and no
    file named ["bolshoi"], this name is included for (halos, bolshoi,
    rockstar) and excluded for (halos, bolshoi, bdm). *)
Theorem identify_relevant_catalogs_conjunctive :
  (forall (cfg : configuration) (catalog_type simname halo_finder : option string),
      let kind := fix_pluralization <$> catalog_type in
      let listing := list_of_catalogs_in_cache cfg kind in
      (forall sn, simname = Some sn -> ~ In sn listing) ->
      exists relevant,
        identify_relevant_catalogs cfg catalog_type simname halo_finder = Return relevant /\
        relevant = List.filter (passes_all kind simname halo_finder) listing /\
        forall c, In c relevant <->
                  In c listing /\
                  supplied kind_suffix kind c = true /\
                  supplied simname_prefix simname c = true /\
                  supplied halo_finder_at_offset halo_finder c = true) /\
  (forall cfg : configuration,
      let listing := list_of_catalogs_in_cache cfg (Some "halos") in
      ~ In "bolshoi" listing ->
      In "bolshoi_a0.7000_rockstar_halos.fits" listing ->
      (exists relevant,
          identify_relevant_catalogs cfg (Some "halos") (Some "bolshoi") (Some "rockstar")
            = Return relevant /\
          In "bolshoi_a0.7000_rockstar_halos.fits" relevant) /\
      (exists relevant,
          identify_relevant_catalogs cfg (Some "halos") (Some "bolshoi") (Some "bdm")
            = Return relevant /\
          ~ In "bolshoi_a0.7000_rockstar_halos.fits" relevant)).
Proof.
  assert (Hgen : forall (cfg : configuration) (catalog_type simname halo_finder : option string),
      (forall sn, simname = Some sn ->
                  ~ In sn (list_of_catalogs_in_cache cfg (fix_pluralization <$> catalog_type))) ->
      identify_relevant_catalogs cfg catalog_type simname halo_finder =
      Return (List.filter (passes_all (fix_pluralization <$> catalog_type) simname halo_finder)
                          (list_of_catalogs_in_cache cfg (fix_pluralization <$> catalog_type)))).
  { intros cfg catalog_type simname halo_finder Hsn.
    rewrite identify_relevant_catalogs_eq. cbv zeta.
    destruct simname as [sn|]; [|reflexivity].
    destruct (existsb (String.eqb sn) _) eqn:Hex; [|reflexivity].
    apply existsb_eqb_In in Hex. now destruct (Hsn sn eq_refl). }
  split.
  - intros cfg catalog_type simname halo_finder kind listing Hsn.
    eexists. split; [now apply Hgen|]. split; [reflexivity|].
    intros c. rewrite filter_In. unfold passes_all.
    rewrite !andb_true_iff. tauto.
  - intros cfg listing Hbare Hin. split.
    + eexists. split.
      * apply Hgen. intros sn [= <-]. exact Hbare.
      * apply filter_In. split; [exact Hin | reflexivity].
    + eexists. split.
      * apply Hgen. intros sn [= <-]. exact Hbare.
      * rewrite filter_In. intros [_ H]. discriminate H.
Qed.

Lemma identify_relevant_catalogs_conjunctive_witness :
  identify_relevant_catalogs example_configuration (Some "halo") (Some "bolshoi")
    (Some "rockstar") =
  Return ["bolshoi_a0.5000_rockstar_halos.fits"; "bolshoi_a0.7000_rockstar_halos.fits";
          "bolshoi_a0.9000_rockstar_halos.fits"].
Proof.
  destruct identify_relevant_catalogs_conjunctive as [Hgen _].
  destruct (Hgen example_configuration (Some "halo") (Some "bolshoi") (Some "rockstar"))
    as (relevant & Hid & Hrel & _).
  - intros sn [= <-]. vm_compute. intuition discriminate.
  - rewrite Hid, Hrel. reflexivity.
Defined.

(** C5, as stated, fails: in a cache that also holds a file named
    ["bolshoi"], the name ["bolshoi_a0.7000_rockstar_halos.fits"] is listed
    and passes the three predicates for (halos, bolshoi, rockstar), yet it is
    not included: the call raises on the other file and returns nothing. *)
Lemma identify_relevant_catalogs_passing_name_not_included :
  In "bolshoi_a0.7000_rockstar_halos.fits"
     (list_of_catalogs_in_cache bare_name_configuration (Some "halos")) /\
  kind_suffix "halos" "bolshoi_a0.7000_rockstar_halos.fits" = true /\
  simname_prefix "bolshoi" "bolshoi_a0.7000_rockstar_halos.fits" = true /\
  halo_finder_at_offset "rockstar" "bolshoi_a0.7000_rockstar_halos.fits" = true /\
  identify_relevant_catalogs bare_name_configuration (Some "halos") (Some "bolshoi")
    (Some "rockstar") = Raise IndexError /\
  forall relevant,
    identify_relevant_catalogs bare_name_configuration (Some "halos") (Some "bolshoi")
      (Some "rockstar") <> Return relevant.
Proof.
  split; [now left|]. do 4 (split; [reflexivity|]). intros relevant. discriminate.
Qed.

(** C10, as amended. With a simname supplied, [identify_relevant_catalogs]
    raises exactly when the listing holds a name equal to the simname
    itself: there the prefix comparison succeeds and [c[len(simname)]] is
    out of range. The error is an [IndexError] and no other error is
    raised. Every other name, however short, is filtered without error. *)
Theorem identify_relevant_catalogs_raises_iff (cfg : configuration)
    (catalog_type simname halo_finder : option string) (e : exn) :
  identify_relevant_catalogs cfg catalog_type simname halo_finder = Raise e <->
  e = IndexError /\
  exists sn, simname = Some sn /\
             In sn (list_of_catalogs_in_cache cfg (fix_pluralization <$> catalog_type)).
Proof.
  rewrite identify_relevant_catalogs_eq. cbv zeta.
  destruct simname as [sn|].
  - destruct (existsb (String.eqb sn) _) eqn:Hex.
    + apply existsb_eqb_In in Hex. split.
      * intros [= <-]. eauto.
      * now intros [-> _].
    + split; [discriminate|]. intros (_ & sn' & [= <-] & Hin).
      apply existsb_eqb_In in Hin. congruence.
  - split; [discriminate|]. now intros (_ & sn' & [=] & _).
Qed.

Lemma identify_relevant_catalogs_raises_iff_witness :
  identify_relevant_catalogs bare_name_configuration (Some "halos") (Some "bolshoi")
    (Some "rockstar") = Raise IndexError.
Proof.
  apply identify_relevant_catalogs_raises_iff. split; [reflexivity|].
  exists "bolshoi". split; [reflexivity|]. vm_compute. tauto.
Defined.

(** C10, as stated, fails: ["abc"] is listed and is shorter than the simname
    ["bolshoi"], yet the call returns; the short name is only excluded. *)
Lemma identify_relevant_catalogs_short_name_returns :
  In "abc" (list_of_catalogs_in_cache short_name_configuration (Some "halos")) /\
  (String.length "abc" <= String.length "bolshoi")%nat /\
  identify_relevant_catalogs short_name_configuration (Some "halos") (Some "bolshoi")
    (Some "rockstar") = Return ["bolshoi_a0.7000_rockstar_halos.fits"] /\
  identify_relevant_catalogs short_name_configuration (Some "halos") (Some "bolshoi")
    (Some "rockstar") <> Raise IndexError.
Proof.
  split; [now left|]. split; [simpl; lia|]. split; [reflexivity | discriminate].
Qed.

(** ** Claims on [find_nearest_snapshot_in_cache] *)



(** ** The order of doubles *)










(** ** Rounding never yields NaN *)








(** ** [argmin] on doubles *)



(** ** The lookup on doubles *)






(** The differences that decide are the computed ones. As decimals, 0.7 and
    0.9 are equally far from 0.8; the computed [|0.9 - 0.8|] is the smaller
    double, and the later candidate is returned. *)
Example find_nearest_snapshot_decimal_tie :
  (Qabs ((7 # 10) - (8 # 10)) == Qabs ((9 # 10) - (8 # 10)))%Q /\
  SFltb (Binary64.difference (Binary64.of_decimal 9 1) (Binary64.of_decimal 8 1))
        (Binary64.difference (Binary64.of_decimal 7 1) (Binary64.of_decimal 8 1)) = true /\
  outcome (Binary64.find_nearest_snapshot_in_cache Binary64.decimal_float
             Binary64.decimal_str (Binary64.of_decimal 5 2) example_configuration
             "halos" (Some (Binary64.of_decimal 8 1)) None "bolshoi" "rockstar") =
    Return (Some "bolshoi_a0.9000_rockstar_halos.fits", Some (Binary64.of_decimal 9 1)).
Proof. split; [reflexivity|]. split; vm_compute; reflexivity. Qed.

(** Nor are they the exact differences of the doubles: the double of 0.85 is
    nearer to 0.5 than the double of 0.15 is, by less than one rounding; the
    two computed differences are the same double, and the earlier candidate
    is returned. *)
Example find_nearest_snapshot_rounded_tie :
  candidates Binary64.tie_configuration "halos" "bolshoi" "rockstar" =
    Return ["bolshoi_a0.1500_rockstar_halos.fits"; "bolshoi_a0.8500_rockstar_halos.fits"] /\
  (Qabs (Binary64.to_Q (Binary64.of_decimal 85 2) - Binary64.to_Q (Binary64.of_decimal 5 1)) <
   Qabs (Binary64.to_Q (Binary64.of_decimal 15 2) - Binary64.to_Q (Binary64.of_decimal 5 1)))%Q /\
  Binary64.difference (Binary64.of_decimal 85 2) (Binary64.of_decimal 5 1) =
  Binary64.difference (Binary64.of_decimal 15 2) (Binary64.of_decimal 5 1) /\
  outcome (Binary64.find_nearest_snapshot_in_cache Binary64.decimal_float
             Binary64.decimal_str (Binary64.of_decimal 5 2) Binary64.tie_configuration
             "halos" (Some (Binary64.of_decimal 5 1)) None "bolshoi" "rockstar") =
    Return (Some "bolshoi_a0.1500_rockstar_halos.fits", Some (Binary64.of_decimal 15 2)).
Proof. split; [reflexivity|]. repeat split; vm_compute; reflexivity. Qed.

(** Why the candidates have to decode to finite floats: a NaN takes the
    place of the running minimum in the scan of [argmin] and ends it, so a
    candidate that decodes to NaN is returned although another candidate is
    at the requested scale factor itself. *)
Example find_nearest_snapshot_nan_candidate :
  candidates Binary64.nan_configuration "halos" "bolshoi" "rockstar" =
    Return ["bolshoi_a0.7000_rockstar_halos.fits"; "bolshoi_a   nan_rockstar_halos.fits"] /\
  Binary64.difference (Binary64.of_decimal 7 1) (Binary64.of_decimal 7 1) = S754_zero false /\
  outcome (Binary64.find_nearest_snapshot_in_cache Binary64.decimal_float
             Binary64.decimal_str (Binary64.of_decimal 5 2) Binary64.nan_configuration
             "halos" (Some (Binary64.of_decimal 7 1)) None "bolshoi" "rockstar") =
    Return (Some "bolshoi_a   nan_rockstar_halos.fits", Some S754_nan).
Proof. split; [reflexivity|]. split; vm_compute; reflexivity. Qed.



(** The comparison with the tolerance is on the rounded difference: the
    computed [|0.7 - 0.75|] is greater than the double 0.05, and the lookup
    warns. *)
Example find_nearest_snapshot_rounded_difference_warns :
  Binary64.gt (Binary64.difference (Binary64.of_decimal 7 1) (Binary64.of_decimal 75 2))
              (Binary64.of_decimal 5 2) = true /\
  Binary64.find_nearest_snapshot_in_cache Binary64.decimal_float Binary64.decimal_str
    (Binary64.of_decimal 5 2) example_configuration "halos"
    (Some (Binary64.of_decimal 75 2)) None "bolshoi" "rockstar" =
  Warned ["Closest match to desired snapshot has a scale factor of 0.7"]
         (Return (Some "bolshoi_a0.7000_rockstar_halos.fits", Some (Binary64.of_decimal 7 1))).
Proof. split; vm_compute; reflexivity. Qed.


(** C3, as amended. Supplying both [scale_factor] and [redshift] raises the
    invalid-request error, and so does supplying neither. When only a
    redshift [z] other than -1 is supplied, the lookup is the lookup for the
    scale factor [1/(1+z)] with no redshift, so the request itself is
    accepted. At [z = -1] the conversion divides by zero and raises
    [ZeroDivisionError]. *)
Theorem find_nearest_scale_factor_xor_redshift
    (py_float : string -> option Q) (py_str : Q -> string)
    (cfg : configuration) (dflt : defaults)
    (catalog_type simname halo_finder : string) :
  (forall q z,
      find_nearest_snapshot_in_cache py_float py_str cfg dflt catalog_type
        (Some q) (Some z) simname halo_finder =
      Warned [] (Raise (IOError "Cannot specify both a redshift and a scale factor"))) /\
  find_nearest_snapshot_in_cache py_float py_str cfg dflt catalog_type
    None None simname halo_finder =
  Warned [] (Raise (IOError "Must specify either a redshift or a scale factor")) /\
  (forall z, ~ (1 + z == 0)%Q ->
      find_nearest_snapshot_in_cache py_float py_str cfg dflt catalog_type
        None (Some z) simname halo_finder =
      find_nearest_snapshot_in_cache py_float py_str cfg dflt catalog_type
        (Some (1 / (1 + z))%Q) None simname halo_finder) /\
  (forall z, (1 + z == 0)%Q ->
      find_nearest_snapshot_in_cache py_float py_str cfg dflt catalog_type
        None (Some z) simname halo_finder =
      Warned [] (Raise ZeroDivisionError)).
Proof.
  split; [reflexivity|]. split; [reflexivity|]. split.
  - intros z Hz. rewrite find_nearest_redshift.
    destruct (Qeq_bool (1 + z) 0) eqn:E; [|reflexivity].
    apply Qeq_bool_eq in E. contradiction.
  - intros z Hz. rewrite find_nearest_redshift.
    apply Qeq_eq_bool in Hz. now rewrite Hz.
Qed.

Lemma find_nearest_scale_factor_xor_redshift_witness :
  find_nearest_snapshot_in_cache decimal_float decimal_str example_configuration
    example_defaults "halos" None (Some (1 # 1)%Q) "bolshoi" "rockstar" =
  Warned [] (Return (Some "bolshoi_a0.5000_rockstar_halos.fits", Some (1 # 2)%Q)).
Proof.
  destruct (find_nearest_scale_factor_xor_redshift decimal_float decimal_str
              example_configuration example_defaults "halos" "bolshoi" "rockstar")
    as (_ & _ & Hz & _).
  rewrite (Hz (1 # 1)%Q).
  - reflexivity.
  - vm_compute. discriminate.
Defined.

(** C3, as stated, fails: the redshift -1 alone, with matching catalogs in
    the cache, does not proceed; the conversion raises. *)
Lemma find_nearest_redshift_minus_one_raises :
  find_nearest_snapshot_in_cache decimal_float decimal_str example_configuration
    example_defaults "halos" None (Some (-1 # 1)%Q) "bolshoi" "rockstar" =
  Warned [] (Raise ZeroDivisionError).
Proof. reflexivity. Qed.




(** A candidate whose scale-factor substring is not a number ends the
    lookup with the [ValueError] of [float]. *)
Example find_nearest_undecodable_raises :
  candidates malformed_configuration "halos" "bolshoi" "rockstar" =
    Return ["bolshoi_a0.7000_rockstar_halos.fits"; "bolshoi_aXXXXXX_rockstar_halos.fits"] /\
  find_nearest_snapshot_in_cache decimal_float decimal_str malformed_configuration
    example_defaults "halos" (Some (7 # 10)%Q) None "bolshoi" "rockstar" =
  Warned [] (Raise ValueError).
Proof. split; reflexivity. Qed.

(** ** [numptcl_to_string] and the default file names *)

Lemma np_round_le_1 (y : Q) : (y <= 1)%Q -> np_round y < 10.
Proof.
  intros H. unfold np_round.
  pose proof (Qfloor_resp_le y 1 H) as Hf.
  change (Qfloor 1) with 1 in Hf.
  destruct (Qcompare (y - inject_Z (Qfloor y)) (1 # 2));
    [destruct (Z.even (Qfloor y))|..]; lia.
Qed.

Lemma pow2_le_pow10 (K : Z) : 0 <= K -> (inject_Z (2 ^ K) <= Qpower 10 K)%Q.
Proof.
  intros HK. change 10%Q with (inject_Z 10).
  rewrite <- Zpower_Qpower by exact HK.
  rewrite <- Zle_Qle. apply Z.pow_le_mono_l. lia.
Qed.

(** The loop ends: once [10 ** ipower] has passed [numptcl] the reduced
    number is below 10, and the fuel reaches that power. *)
Lemma oom_loop_terminates (x : Q) (K : Z) :
  (x <= inject_Z (2 ^ K))%Q -> 0 <= K ->
  forall (fuel : nat) (ipower : Z),
    0 <= ipower -> ipower + Z.of_nat fuel - 1 = K -> (0 < fuel)%nat ->
    exists ip, oom_loop fuel x ipower = Some ip.
Proof.
  intros Hx HK. induction fuel as [|fuel IH]; intros ipower Hip Hsum Hpos; [lia|].
  cbn [oom_loop].
  destruct (np_round (x / Qpower 10 ipower) <? 10) eqn:E; [eauto|].
  destruct fuel as [|fuel].
  - exfalso. apply Z.ltb_ge in E.
    assert (ipower = K) by lia. subst ipower.
    assert (Hlt : np_round (x / Qpower 10 K) < 10); [|lia].
    apply np_round_le_1. apply Qle_shift_div_r.
    + apply Qpower_0_lt. reflexivity.
    + rewrite Qmult_1_l. eapply Qle_trans; [exact Hx | now apply pow2_le_pow10].
  - apply IH; lia.
Qed.

(** [numptcl_to_string] returns a string for every number. *)
Lemma numptcl_to_string_total (numptcl : Q) :
  exists output_string, numptcl_to_string numptcl = Some output_string.
Proof.
  unfold numptcl_to_string, oom_fuel.
  set (K := Z.log2_up (Z.max 1 (Qceiling numptcl))).
  assert (HK : 0 <= K) by apply Z.log2_up_nonneg.
  destruct (oom_loop_terminates numptcl K) with (fuel := S (Z.to_nat K)) (ipower := 0)
    as [ip Hip]; try lia.
  - eapply Qle_trans; [apply Qle_ceiling|]. rewrite <- Zle_Qle.
    pose proof (Z.log2_log2_up_spec (Z.max 1 (Qceiling numptcl))) as H.
    fold K in H. lia.
  - rewrite Hip. cbn. eauto.
Qed.

Lemma append_inj_tail (s1 s2 t1 t2 : string) :
  String.length t1 = String.length t2 -> s1 +:+ t1 = s2 +:+ t2 -> t1 = t2.
Proof.
  intros Hlen. revert s2. induction s1 as [|a s1 IH]; intros s2 H.
  - destruct s2 as [|b s2]; [exact H|].
    apply (f_equal String.length) in H. rewrite append_nil, length_append in H.
    simpl in H. lia.
  - destruct s2 as [|b s2].
    + apply (f_equal String.length) in H. rewrite append_nil, length_append in H.
      simpl in H. lia.
    + rewrite !append_cons in H. injection H as _ H. now apply (IH s2).
Qed.

Lemma Catalog_Manager_init_total (py_str : Q -> string) (dflt : defaults) :
  exists self, Catalog_Manager_init py_str dflt = Some self.
Proof.
  unfold Catalog_Manager_init.
  destruct (numptcl_to_string_total (default_numptcl dflt)) as [code ->].
  cbn. eauto.
Qed.

(** The two default file names of a manager are never the same name: one
    ends in ["halos.fits"], the other in ["particles.fits"]. *)
Lemma default_filenames_differ (py_str : Q -> string) (dflt : defaults)
    (self : Catalog_Manager) :
  Catalog_Manager_init py_str dflt = Some self ->
  default_halo_catalog_filename self <> default_particle_catalog_filename self.
Proof.
  unfold Catalog_Manager_init. intros Hinit.
  destruct (numptcl_to_string (default_numptcl dflt)) as [code|]; [|discriminate].
  cbn in Hinit. injection Hinit as <-. cbn [default_halo_catalog_filename
    default_particle_catalog_filename]. intros H.
  rewrite <- !append_assoc in H.
  change "_halos.fits" with ("_hal" +:+ "os.fits") in H.
  change "_particles.fits" with ("_particl" +:+ "es.fits") in H.
  rewrite <- !append_assoc in H.
  apply append_inj_tail in H; [discriminate | reflexivity].
Qed.

(** ** Claims on [load_catalog] *)

Section LoaderFacts.

Variable Table : Type.
Variable fits_table : string -> result Table.
Variable remote : gmap string string.
Variable self : Catalog_Manager.
Variable cfg : configuration.

Local Abbreviation load := (load_catalog Table fits_table remote self cfg).
Local Abbreviation table_of := (loaded fits_table).

Lemma isfile_present (path content : string) (w : world) :
  files w !! path = Some content -> isfile path w = (w, Return true).
Proof.
  intros H. unfold isfile. rewrite bool_decide_eq_true_2; [reflexivity|].
  rewrite H. eauto.
Qed.

Lemma isfile_absent (path : string) (w : world) :
  files w !! path = None -> isfile path w = (w, Return false).
Proof.
  intros H. unfold isfile. rewrite bool_decide_eq_false_2; [reflexivity|].
  rewrite H. now intros [? ?].
Qed.

(** A file that is present is read in place. *)
Lemma load_catalog_present (dirname : string) (filename : option string)
    (download_yn : bool) (url : string) (w : world) (content : string) :
  files w !! path_join dirname (requested_filename self filename) = Some content ->
  load dirname filename download_yn url w =
  (log (FitsOpen (path_join dirname (requested_filename self filename))) w,
   table_of content).
Proof.
  intros H. unfold load_catalog. fold (requested_filename self filename).
  unfold mbind at 1, io_bind at 1. rewrite (isfile_present _ content) by exact H.
  unfold mbind, io_bind, read_table, loaded. rewrite H.
  destruct (fits_table content); reflexivity.
Qed.

(** A file that is absent, with downloading allowed: the file is fetched
    when its name is the default particle name, and the call raises for
    every other name. *)
Lemma load_catalog_absent_download (dirname : string) (filename : option string)
    (url : string) (w : world) :
  files w !! path_join dirname (requested_filename self filename) = None ->
  load dirname filename true url w =
  let filename := requested_filename self filename in
  if String.eqb filename (default_particle_catalog_filename self) then
    let remote_filename := path_join url filename in
    let output_filename := path_join (get_catalogs_dir cfg "particles") filename in
    match remote !! remote_filename with
    | None => (log (UrlOpen remote_filename) w, Raise URLError)
    | Some body =>
        ({| files := <[output_filename := body]> (files w);
            trace := trace w ++ [UrlOpen remote_filename; FileWrite output_filename;
                                 FitsOpen output_filename] |},
         table_of body)
    end
  else
    (w, Raise (IOError
                 "Input filename does not match one of the provided default catalogs")).
Proof.
  intros H. unfold load_catalog. fold (requested_filename self filename).
  cbv zeta. unfold mbind at 1, io_bind at 1. rewrite isfile_absent by exact H.
  cbn [negb].
  destruct (String.eqb (requested_filename self filename)
                       (default_particle_catalog_filename self)); [|reflexivity].
  unfold mbind, io_bind, mret, io_ret, urlopen_read, write_file, read_table, loaded, log.
  cbn [files trace].
  destruct (remote !! _) as [body|]; [|reflexivity].
  rewrite lookup_insert_eq, <- !app_assoc. cbn [app].
  destruct (fits_table body); reflexivity.
Qed.

(** C6. When the file at [dirname/filename] exists locally, [load_catalog]
    returns what the table reader makes of that file's content (the table,
    when the reader accepts the file); the only effect is that one read:
    no URL is opened and no file is written, whatever [download_yn] is. *)
Theorem load_catalog_local_no_network (dirname : string) (filename : option string)
    (download_yn : bool) (url : string) (w : world) (content : string) :
  files w !! path_join dirname (requested_filename self filename) = Some content ->
  let path := path_join dirname (requested_filename self filename) in
  let (w', r) := load_catalog Table fits_table remote self cfg dirname filename
                   download_yn url w in
  r = table_of content /\
  (forall catalog, fits_table content = Return catalog -> r = Return (Some catalog)) /\
  trace w' = trace w ++ [FitsOpen path] /\
  List.filter is_network (trace w') = List.filter is_network (trace w) /\
  files w' = files w.
Proof.
  intros H path.
  pose proof (load_catalog_present dirname filename download_yn url w content H) as Hload.
  rewrite Hload. fold path.
  split; [reflexivity|]. split.
  { intros catalog Hc. unfold loaded. now rewrite Hc. }
  split; [reflexivity|]. split; [|reflexivity].
  cbn [log trace]. rewrite List.filter_app. cbn. apply app_nil_r.
Qed.

(** C7. When the requested file is absent locally and [download_yn] is
    false, [load_catalog] returns [None]; it raises nothing and has no
    effect. *)
Theorem load_catalog_absent_no_download (dirname : string) (filename : option string)
    (url : string) (w : world) :
  files w !! path_join dirname (requested_filename self filename) = None ->
  load_catalog Table fits_table remote self cfg dirname filename false url w =
  (w, Return None).
Proof.
  intros H. unfold load_catalog. fold (requested_filename self filename).
  unfold mbind at 1, io_bind at 1. now rewrite isfile_absent by exact H.
Qed.

(** C1, on the code. With downloading allowed, a missing file whose name
    is the default halo catalog name is not fetched: the second test of
    the file name, which is not chained to the first by [elif], sends
    every name but the default particle name to the [else] branch, and
    [load_catalog] raises the input error without opening the URL. *)
Theorem load_catalog_default_halo_raises (py_str : Q -> string) (dflt : defaults)
    (dirname url : string) (w : world) :
  Catalog_Manager_init py_str dflt = Some self ->
  files w !! path_join dirname (default_halo_catalog_filename self) = None ->
  load_catalog Table fits_table remote self cfg dirname
    (Some (default_halo_catalog_filename self)) true url w =
  (w, Raise (IOError
               "Input filename does not match one of the provided default catalogs")).
Proof.
  intros Hinit H.
  pose proof (load_catalog_absent_download dirname
                (Some (default_halo_catalog_filename self)) url w H) as Hload.
  rewrite Hload. cbv zeta. cbn [requested_filename].
  destruct (String.eqb_spec (default_halo_catalog_filename self)
                            (default_particle_catalog_filename self)) as [He|_];
    [|reflexivity].
  now apply default_filenames_differ in Hinit.
Qed.

End LoaderFacts.

Lemma load_catalog_local_no_network_witness :
  load_catalog string example_reader example_remote example_manager example_configuration
    "/cache/halos" (Some "bolshoi_a0.7000_rockstar_halos.fits") true
    "http://archive.example/catalogs" example_world =
  ({| files := files example_world;
      trace := [FitsOpen "/cache/halos/bolshoi_a0.7000_rockstar_halos.fits"] |},
   Return (Some "cached halo rows")).
Proof.
  pose proof (load_catalog_local_no_network string example_reader example_remote
                example_manager example_configuration "/cache/halos"
                (Some "bolshoi_a0.7000_rockstar_halos.fits") true
                "http://archive.example/catalogs" example_world "cached halo rows") as H.
  cbv zeta in H.
  destruct (load_catalog string example_reader example_remote example_manager
              example_configuration "/cache/halos"
              (Some "bolshoi_a0.7000_rockstar_halos.fits") true
              "http://archive.example/catalogs" example_world) as [w' r].
  destruct H as (Hr & _ & Htrace & _ & Hfiles).
  - reflexivity.
  - destruct w' as [fs tr]. cbn in Htrace, Hfiles. subst. reflexivity.
Defined.

Lemma load_catalog_absent_no_download_witness :
  load_catalog string example_reader example_remote example_manager example_configuration
    "/cache/halos" None false "http://archive.example/catalogs" example_world =
  (example_world, Return None).
Proof.
  apply (load_catalog_absent_no_download string example_reader example_remote
           example_manager example_configuration "/cache/halos" None
           "http://archive.example/catalogs" example_world).
  reflexivity.
Defined.

Lemma load_catalog_default_halo_raises_witness :
  load_catalog string example_reader example_remote example_manager example_configuration
    "/cache/halos" (Some "bolshoi_a1.0003_rockstar_halos.fits") true
    "http://archive.example/catalogs" example_world =
  (example_world,
   Raise (IOError "Input filename does not match one of the provided default catalogs")).
Proof.
  apply (load_catalog_default_halo_raises string example_reader example_remote
           example_manager example_configuration decimal_str example_defaults
           "/cache/halos" "http://archive.example/catalogs" example_world).
  - reflexivity.
  - reflexivity.
Defined.

(** The sibling path: the default particle catalog, missing and with
    downloading allowed, is fetched from [url/filename], written to the
    particle cache directory, read again and returned. *)
Example load_catalog_default_particle_downloads :
  load_catalog string example_reader example_remote example_manager example_configuration
    "/cache/particles" (Some "bolshoi_a1.0003_2e5_particles.fits") true
    "http://archive.example/catalogs" example_world =
  ({| files := <["/cache/particles/bolshoi_a1.0003_2e5_particles.fits" := "particle rows"]>
                 (files example_world);
      trace := [UrlOpen "http://archive.example/catalogs/bolshoi_a1.0003_2e5_particles.fits";
                FileWrite "/cache/particles/bolshoi_a1.0003_2e5_particles.fits";
                FitsOpen "/cache/particles/bolshoi_a1.0003_2e5_particles.fits"] |},
   Return (Some "particle rows")).
Proof.
  rewrite load_catalog_absent_download by reflexivity. reflexivity.
Qed.

(** Any other missing name, with downloading allowed, raises the input
    error; no URL is opened. *)
Example load_catalog_other_name_raises :
  load_catalog string example_reader example_remote example_manager example_configuration
    "/cache/halos" (Some "bolshoi_a0.5000_rockstar_halos.fits") true
    "http://archive.example/catalogs" example_world =
  (example_world,
   Raise (IOError "Input filename does not match one of the provided default catalogs")).
Proof.
  rewrite load_catalog_absent_download by reflexivity. reflexivity.
Qed.

(** ** More on [numptcl_to_string] *)

Lemma np_round_comp (x y : Q) : (x == y)%Q -> np_round x = np_round y.
Proof.
  intros H. unfold np_round. rewrite (Qfloor_comp x y H).
  assert (Hc : Qcompare (x - inject_Z (Qfloor y)) (1 # 2) =
               Qcompare (y - inject_Z (Qfloor y)) (1 # 2)).
  { apply Qcompare_comp; [now rewrite H | reflexivity]. }
  now rewrite Hc.
Qed.

Lemma np_round_inject_Z (n : Z) : np_round (inject_Z n) = n.
Proof.
  unfold np_round. rewrite Qfloor_Z.
  assert (Hc : Qcompare (inject_Z n - inject_Z n) (1 # 2) = Qcompare 0 (1 # 2)).
  { apply Qcompare_comp; [ring | reflexivity]. }
  rewrite Hc. reflexivity.
Qed.

(** Where the loop stops: at the first power, from [ipower] on, whose
    reduced number is below 10. *)
Lemma oom_loop_exit (fuel : nat) (x : Q) :
  forall ipower ip,
    oom_loop fuel x ipower = Some ip ->
    ipower < ip /\
    np_round (x / Qpower 10 (ip - 1)) < 10 /\
    forall j, ipower <= j < ip - 1 -> 10 <= np_round (x / Qpower 10 j).
Proof.
  induction fuel as [|fuel IH]; intros ipower ip H; [discriminate|].
  cbn [oom_loop] in H.
  destruct (np_round (x / Qpower 10 ipower) <? 10) eqn:E.
  - injection H as <-. apply Z.ltb_lt in E.
    replace (ipower + 1 - 1) with ipower by lia.
    split; [lia|]. split; [exact E|]. intros j Hj. lia.
  - apply Z.ltb_ge in E. apply IH in H as (Hlt & Hexit & Hbefore).
    split; [lia|]. split; [exact Hexit|].
    intros j Hj. destruct (Z.eq_dec j ipower) as [->|Hne]; [exact E|].
    apply Hbefore. lia.
Qed.

(** The loop of [numptcl_to_string] ends on every number, and the result is
    the mantissa, ['e'] and the exponent: the exponent is the least power of
    ten that brings the rounded quotient below 10, and the mantissa is that
    rounded quotient. *)
Lemma numptcl_to_string_shape (numptcl : Q) :
  exists mantissa power,
    numptcl_to_string numptcl = Some (str_int mantissa +:+ "e" +:+ str_int power) /\
    0 <= power /\
    mantissa = np_round (numptcl / Qpower 10 power) /\
    mantissa < 10 /\
    forall j, 0 <= j < power -> 10 <= np_round (numptcl / Qpower 10 j).
Proof.
  destruct (numptcl_to_string_total numptcl) as [s Hs].
  unfold numptcl_to_string in *.
  destruct (oom_loop (oom_fuel numptcl) numptcl 0) as [ip|] eqn:Hloop; [|discriminate].
  apply oom_loop_exit in Hloop as (Hlt & Hexit & Hbefore).
  exists (np_round (numptcl / Qpower 10 (ip - 1))), (ip - 1).
  split.
  { unfold mbind, option_bind. cbv zeta. now rewrite Qfloor_Z. }
  split; [lia|]. split; [reflexivity|]. split; [exact Hexit | exact Hbefore].
Qed.

Lemma pow10_quotient (d k j : Z) :
  0 <= j <= k ->
  (inject_Z (d * 10 ^ k) / Qpower 10 j == inject_Z (d * 10 ^ (k - j)))%Q.
Proof.
  intros Hj. change 10%Q with (inject_Z 10).
  rewrite <- Zpower_Qpower by lia.
  replace (d * 10 ^ k) with (d * 10 ^ (k - j) * 10 ^ j).
  - rewrite inject_Z_mult. field.
    intros H. unfold Qeq, inject_Z in H. cbn [Qnum Qden] in H.
    pose proof (Z.pow_pos_nonneg 10 j). lia.
  - rewrite <- Z.mul_assoc, <- Z.pow_add_r by lia. do 2 f_equal. lia.
Qed.

(** A number [d * 10^k] with one digit [d] from 1 to 9 is encoded as the
    digit, ['e'] and [k]. *)
Lemma numptcl_to_string_digit_power_eq (d k : Z) :
  1 <= d <= 9 -> 0 <= k ->
  numptcl_to_string (inject_Z (d * 10 ^ k)) = Some (str_int d +:+ "e" +:+ str_int k).
Proof.
  intros Hd Hk.
  destruct (numptcl_to_string_shape (inject_Z (d * 10 ^ k)))
    as (m & p & Hs & Hp & Hm & Hlt & Hbefore).
  assert (Hround : forall j, 0 <= j <= k ->
             np_round (inject_Z (d * 10 ^ k) / Qpower 10 j) = d * 10 ^ (k - j)).
  { intros j Hj. rewrite (np_round_comp _ _ (pow10_quotient d k j Hj)).
    apply np_round_inject_Z. }
  assert (p = k).
  { destruct (Z.lt_trichotomy p k) as [Hpk|[Hpk|Hpk]]; [|exact Hpk|].
    - rewrite Hround in Hm by lia.
      assert (10 ^ 1 <= 10 ^ (k - p)) by (apply Z.pow_le_mono_r; lia).
      nia.
    - specialize (Hbefore k ltac:(lia)). rewrite Hround in Hbefore by lia.
      rewrite Z.sub_diag in Hbefore. lia. }
  subst p. rewrite Hround in Hm by lia. rewrite Z.sub_diag in Hm.
  rewrite Hs, Hm, Z.pow_0_r, Z.mul_1_r. reflexivity.
Qed.




(** The three characters of the docstring: for one digit and a power of ten
    up to 9 the code has exactly three characters. *)
Theorem numptcl_to_string_three_characters (d k : Z) :
  1 <= d <= 9 -> 0 <= k <= 9 ->
  exists output_string,
    numptcl_to_string (inject_Z (d * 10 ^ k)) = Some output_string /\
    String.length output_string = 3%nat.
Proof.
  intros Hd Hk. eexists. split; [apply numptcl_to_string_digit_power_eq; lia|].
  assert (Hds : d = 1 \/ d = 2 \/ d = 3 \/ d = 4 \/ d = 5 \/ d = 6 \/ d = 7 \/ d = 8 \/ d = 9)
    by lia.
  assert (Hks : k = 0 \/ k = 1 \/ k = 2 \/ k = 3 \/ k = 4 \/ k = 5 \/ k = 6 \/ k = 7 \/
                k = 8 \/ k = 9) by lia.
  clear Hd Hk.
  repeat (destruct Hds as [-> | Hds]); try subst d;
    repeat (destruct Hks as [-> | Hks]); try subst k; reflexivity.
Qed.

Lemma numptcl_to_string_three_characters_witness :
  exists output_string,
    numptcl_to_string (inject_Z (2 * 10 ^ 5)) = Some output_string /\
    String.length output_string = 3%nat.
Proof.
  apply (numptcl_to_string_three_characters 2 5); lia.
Defined.

(** ** The file-name convention: what [__init__] builds, the filters accept *)

Lemma is_suffix_app (pre suf : string) : is_suffix suf (pre +:+ suf) = true.
Proof.
  induction pre as [|a pre IH].
  - rewrite append_nil. destruct suf; cbn [is_suffix]; now rewrite String.eqb_refl.
  - rewrite append_cons. cbn [is_suffix]. rewrite IH. apply orb_true_r.
Qed.

Lemma is_suffix_spec (suf s : string) :
  is_suffix suf s = true <-> exists pre, s = pre +:+ suf.
Proof.
  split.
  - induction s as [|a s IH]; cbn [is_suffix]; intros H.
    + rewrite orb_false_r in H. apply String.eqb_eq in H. exists "". now subst.
    + apply orb_true_iff in H as [H|H].
      * apply String.eqb_eq in H. exists "". now subst.
      * destruct (IH H) as [pre ->]. now exists (String a pre).
  - intros [pre ->]. apply is_suffix_app.
Qed.

Lemma prefix_app (p rest : string) : String.prefix p (p +:+ rest) = true.
Proof.
  induction p as [|a p IH]; [now destruct rest|].
  rewrite append_cons. cbn [String.prefix].
  destruct (ascii_dec a a) as [_|Hn]; [exact IH | congruence].
Qed.

Lemma substring_app_head (m t : string) :
  substring 0 (String.length m) (m +:+ t) = m.
Proof.
  induction m as [|a m IH].
  - rewrite append_nil. now destruct t.
  - rewrite append_cons. cbn [String.length substring]. now rewrite IH.
Qed.

Lemma substring_app_middle (pre m t : string) :
  substring (String.length pre) (String.length m) (pre +:+ m +:+ t) = m.
Proof.
  induction pre as [|a pre IH].
  - rewrite append_nil. apply substring_app_head.
  - rewrite append_cons. cbn [String.length substring]. exact IH.
Qed.

(** A name built as [pre + halo_finder + tail], with a tail of 11
    characters, has the halo finder at the offset the filter reads. *)
Lemma halo_finder_at_offset_app (pre halo_finder tail : string) :
  String.length tail = 11%nat ->
  halo_finder_at_offset halo_finder (pre +:+ halo_finder +:+ tail) = true.
Proof.
  intros Htail. unfold halo_finder_at_offset, slice, slice_bound, len.
  rewrite !length_append, Htail.
  destruct (Z.ltb_spec (-11 - Z.of_nat (String.length halo_finder)) 0) as [_|?]; [|lia].
  destruct (Z.ltb_spec (-11) 0) as [_|?]; [|lia].
  match goal with
  | |- String.eqb (substring ?a ?b _) _ = true =>
      replace a with (String.length pre) by lia;
      replace b with (String.length halo_finder) by lia
  end.
  rewrite substring_app_middle. apply String.eqb_refl.
Qed.

(** The six characters after [simname + "_a"] are the substring the lookup
    decodes. *)
Lemma scale_factor_substring_app (simname digits rest : string) :
  String.length digits = 6%nat ->
  scale_factor_substring simname (simname +:+ "_a" +:+ digits +:+ rest) = digits.
Proof.
  intros Hd. unfold scale_factor_substring, slice, slice_bound, len.
  rewrite !length_append, Hd. cbn [String.length].
  destruct (Z.ltb_spec (Z.of_nat (String.length simname) + 2) 0) as [?|_]; [lia|].
  destruct (Z.ltb_spec (Z.of_nat (String.length simname) + 8) 0) as [?|_]; [lia|].
  rewrite <- (append_assoc simname "_a").
  match goal with
  | |- substring ?a ?b _ = _ =>
      replace a with (String.length (simname +:+ "_a"))
        by (rewrite length_append; cbn [String.length]; lia);
      replace b with (String.length digits) by lia
  end.
  apply substring_app_middle.
Qed.

(** A halo catalog named by the convention
    [simname_a<six characters>_<halo finder>_halos.fits] passes the three
    filters of its own simname and halo finder, and the lookup decodes its
    six characters. *)
Lemma halo_filename_convention (simname digits halo_finder : string) :
  let name := simname +:+ "_a" +:+ digits +:+ "_" +:+ halo_finder +:+ "_halos.fits" in
  passes_all (Some "halos") (Some simname) (Some halo_finder) name = true /\
  (String.length digits = 6%nat -> scale_factor_substring simname name = digits).
Proof.
  intros name. split.
  - unfold passes_all. cbn [supplied]. rewrite !andb_true_iff. repeat split.
    + unfold kind_suffix, name. apply is_suffix_spec.
      exists (simname +:+ "_a" +:+ digits +:+ "_" +:+ halo_finder +:+ "_").
      rewrite !append_assoc. reflexivity.
    + unfold simname_prefix, name.
      replace (simname +:+ "_a" +:+ digits +:+ "_" +:+ halo_finder +:+ "_halos.fits")
        with ((simname +:+ "_") +:+ ("a" +:+ digits +:+ "_" +:+ halo_finder +:+ "_halos.fits"))
        by (rewrite append_assoc; reflexivity).
      apply prefix_app.
    + unfold name.
      replace (simname +:+ "_a" +:+ digits +:+ "_" +:+ halo_finder +:+ "_halos.fits")
        with ((simname +:+ "_a" +:+ digits +:+ "_") +:+ halo_finder +:+ "_halos.fits")
        by (rewrite !append_assoc; reflexivity).
      now apply halo_finder_at_offset_app.
  - intros Hd. now apply scale_factor_substring_app.
Qed.

(** The same for a particle catalog, which has no halo-finder filter. *)
Lemma particle_filename_convention (simname digits numptcl_code : string) :
  let name := simname +:+ "_a" +:+ digits +:+ "_" +:+ numptcl_code +:+ "_particles.fits" in
  passes_all (Some "particles") (Some simname) None name = true /\
  (String.length digits = 6%nat -> scale_factor_substring simname name = digits).
Proof.
  intros name. split.
  - unfold passes_all. cbn [supplied]. rewrite !andb_true_iff. repeat split.
    + unfold kind_suffix, name. apply is_suffix_spec.
      exists (simname +:+ "_a" +:+ digits +:+ "_" +:+ numptcl_code +:+ "_").
      rewrite !append_assoc. reflexivity.
    + unfold simname_prefix, name.
      replace (simname +:+ "_a" +:+ digits +:+ "_" +:+ numptcl_code +:+ "_particles.fits")
        with ((simname +:+ "_") +:+
              ("a" +:+ digits +:+ "_" +:+ numptcl_code +:+ "_particles.fits"))
        by (rewrite append_assoc; reflexivity).
      apply prefix_app.
  - intros Hd. now apply scale_factor_substring_app.
Qed.

Lemma candidates_eq (cfg : configuration) (catalog_type simname halo_finder : string) :
  ~ In simname (list_of_catalogs_in_cache cfg (Some (fix_pluralization catalog_type))) ->
  fix_pluralization (fix_pluralization catalog_type) = fix_pluralization catalog_type ->
  candidates cfg catalog_type simname halo_finder =
  Return (List.filter
            (passes_all (Some (fix_pluralization catalog_type)) (Some simname)
                        (lookup_halo_finder catalog_type halo_finder))
            (list_of_catalogs_in_cache cfg (Some (fix_pluralization catalog_type)))).
Proof.
  intros Hnot Hfix. unfold candidates.
  rewrite identify_relevant_catalogs_eq. cbv zeta. cbn [fmap option_fmap option_map].
  rewrite Hfix.
  destruct (existsb _ _) eqn:Hex; [|reflexivity].
  apply existsb_eqb_In in Hex. contradiction.
Qed.

(** The default halo catalog name that [Catalog_Manager()] builds is a
    candidate of the default lookup as soon as it is in the cache, in a
    cache without a file named as the simulation itself: it passes the kind,
    simname and halo-finder filters of the default simulation and halo
    finder. *)
Theorem default_halo_catalog_is_candidate (py_str : Q -> string) (dflt : defaults)
    (self : Catalog_Manager) (cfg : configuration) :
  Catalog_Manager_init py_str dflt = Some self ->
  In (default_halo_catalog_filename self) (list_of_catalogs_in_cache cfg (Some "halos")) ->
  ~ In (default_simulation_name dflt) (list_of_catalogs_in_cache cfg (Some "halos")) ->
  exists cs,
    candidates cfg "halos" (default_simulation_name dflt) (default_halo_finder dflt)
      = Return cs /\
    In (default_halo_catalog_filename self) cs.
Proof.
  intros Hinit Hin Hnot. unfold Catalog_Manager_init in Hinit.
  destruct (numptcl_to_string (default_numptcl dflt)) as [code|]; [|discriminate].
  cbn in Hinit. injection Hinit as <-. cbn [default_halo_catalog_filename] in *.
  eexists. split; [now apply candidates_eq|].
  apply filter_In. split; [exact Hin|].
  apply (halo_filename_convention (default_simulation_name dflt)).
Qed.

(** The default particle catalog name is a candidate of the default particle
    lookup as soon as it is in the cache, in a cache without a file named as
    the simulation itself, whatever the halo finder. *)
Theorem default_particle_catalog_is_candidate (py_str : Q -> string) (dflt : defaults)
    (self : Catalog_Manager) (cfg : configuration) (halo_finder : string) :
  Catalog_Manager_init py_str dflt = Some self ->
  In (default_particle_catalog_filename self)
     (list_of_catalogs_in_cache cfg (Some "particles")) ->
  ~ In (default_simulation_name dflt) (list_of_catalogs_in_cache cfg (Some "particles")) ->
  exists cs,
    candidates cfg "particles" (default_simulation_name dflt) halo_finder = Return cs /\
    In (default_particle_catalog_filename self) cs.
Proof.
  intros Hinit Hin Hnot. unfold Catalog_Manager_init in Hinit.
  destruct (numptcl_to_string (default_numptcl dflt)) as [code|]; [|discriminate].
  cbn in Hinit. injection Hinit as <-. cbn [default_particle_catalog_filename] in *.
  eexists. split; [now apply candidates_eq|].
  apply filter_In. split; [exact Hin|].
  apply (particle_filename_convention (default_simulation_name dflt)).
Qed.

(** When [str] of the rounded default scale factor has six characters, the
    lookup decodes from both default names exactly what [float] makes of
    those characters. *)
Theorem default_filenames_decode (py_float : string -> option Q) (py_str : Q -> string)
    (dflt : defaults) (self : Catalog_Manager) :
  Catalog_Manager_init py_str dflt = Some self ->
  String.length (py_str (np_round_decimals (default_scale_factor dflt) 4)) = 6%nat ->
  decoded_scale_factor py_float (default_simulation_name dflt)
    (default_halo_catalog_filename self) =
  py_float (py_str (np_round_decimals (default_scale_factor dflt) 4)) /\
  decoded_scale_factor py_float (default_simulation_name dflt)
    (default_particle_catalog_filename self) =
  py_float (py_str (np_round_decimals (default_scale_factor dflt) 4)).
Proof.
  intros Hinit Hlen. unfold Catalog_Manager_init in Hinit.
  destruct (numptcl_to_string (default_numptcl dflt)) as [code|]; [|discriminate].
  cbn in Hinit. injection Hinit as <-.
  cbn [default_halo_catalog_filename default_particle_catalog_filename].
  unfold decoded_scale_factor.
  split; f_equal; now apply scale_factor_substring_app.
Qed.

Lemma identify_relevant_catalogs_returns (cfg : configuration)
    (catalog_type simname halo_finder : option string) (relevant : list string) :
  identify_relevant_catalogs cfg catalog_type simname halo_finder = Return relevant ->
  relevant =
  List.filter (passes_all (fix_pluralization <$> catalog_type) simname halo_finder)
              (list_of_catalogs_in_cache cfg (fix_pluralization <$> catalog_type)).
Proof.
  rewrite identify_relevant_catalogs_eq. cbv zeta.
  destruct (match simname with Some _ => _ | None => _ end); [discriminate|].
  now intros [= <-].
Qed.

(** No name is both a halo catalog and a particle catalog: the two kind
    filters exclude each other. *)
Theorem halo_and_particle_kinds_disjoint (cfg : configuration)
    (simname halo_finder simname' halo_finder' : option string)
    (halo_catalogs particle_catalogs : list string) (c : string) :
  identify_relevant_catalogs cfg (Some "halos") simname halo_finder = Return halo_catalogs ->
  identify_relevant_catalogs cfg (Some "particles") simname' halo_finder'
    = Return particle_catalogs ->
  In c halo_catalogs -> ~ In c particle_catalogs.
Proof.
  intros H1 H2 Hc1 Hc2.
  apply identify_relevant_catalogs_returns in H1, H2. subst.
  apply filter_In in Hc1 as [_ Hc1]. apply filter_In in Hc2 as [_ Hc2].
  unfold passes_all in Hc1, Hc2. cbn [supplied] in Hc1, Hc2.
  apply andb_true_iff in Hc1 as [Hc1 _]. apply andb_true_iff in Hc1 as [Hc1 _].
  apply andb_true_iff in Hc2 as [Hc2 _]. apply andb_true_iff in Hc2 as [Hc2 _].
  unfold kind_suffix in Hc1, Hc2.
  apply is_suffix_spec in Hc1 as [p1 H1]. apply is_suffix_spec in Hc2 as [p2 H2].
  assert (E1 : c = (p1 +:+ "hal") +:+ "os.fits") by (rewrite append_assoc; exact H1).
  assert (E2 : c = (p2 +:+ "particl") +:+ "es.fits") by (rewrite append_assoc; exact H2).
  rewrite E1 in E2.
  apply append_inj_tail in E2; [discriminate | reflexivity].
Qed.

(** ** [retrieve_catalog_filenames_from_url] *)

Lemma collect_links_hrefs (keep : string -> bool) (links acc : list string) :
  collect_links keep (map Some links) acc = inr (acc ++ List.filter keep links).
Proof.
  revert acc. induction links as [|l links IH]; intros acc; cbn [map collect_links List.filter].
  - now rewrite app_nil_r.
  - rewrite IH. destruct (keep l); [now rewrite <- app_assoc | reflexivity].
Qed.

Lemma collect_links_missing_href (keep : string -> bool) (anchors : list anchor)
    (acc : list string) :
  In None anchors -> collect_links keep anchors acc = inl (KeyError "href").
Proof.
  revert acc. induction anchors as [|a anchors IH]; intros acc Hin; [destruct Hin|].
  cbn [collect_links]. destruct a as [l|]; [|reflexivity].
  apply IH. destruct Hin as [H|H]; [discriminate | exact H].
Qed.

Lemma collect_links_no_type_error (keep : string -> bool) (anchors : list anchor)
    (acc : list string) (msg : string) :
  collect_links keep anchors acc <> inl (TypeError msg).
Proof.
  revert acc. induction anchors as [|a anchors IH]; intros acc; cbn [collect_links].
  - discriminate.
  - destruct a; [apply IH | discriminate].
Qed.

Lemma slice_prefix_eqb (p link : string) :
  String.eqb (slice link (Some 0) (Some (len p))) p = String.prefix p link.
Proof.
  rewrite slice_prefix.
  destruct (String.prefix p link) eqn:E.
  - apply prefix_correct in E. rewrite E. apply String.eqb_refl.
  - apply String.eqb_neq. intros H. apply prefix_correct in H. congruence.
Qed.

(** The kinds the archive at SLAC knows. *)
Lemma slac_kind_cases (catalog_type : string) :
  (String.eqb catalog_type "halo" || String.eqb catalog_type "halos" = true <->
   catalog_type = "halo" \/ catalog_type = "halos") /\
  (String.eqb catalog_type "tree" || String.eqb catalog_type "trees" = true <->
   catalog_type = "tree" \/ catalog_type = "trees").
Proof. rewrite !orb_true_iff, !String.eqb_eq. tauto. Qed.

(** The method raises its [TypeError] exactly at the SLAC address with a
    kind that is neither halos nor trees, and then whatever the page holds. *)
Theorem retrieve_catalog_filenames_type_error (dflt : defaults)
    (behroozi_web_location : string) (anchors : list anchor)
    (url catalog_type msg : string) :
  retrieve_catalog_filenames_from_url dflt behroozi_web_location anchors url catalog_type
    = inl (TypeError msg) <->
  url = behroozi_web_location /\
  ~ In catalog_type ["halo"; "halos"; "tree"; "trees"] /\
  msg = "Input catalog type must either be 'halos' or 'trees'".
Proof.
  unfold retrieve_catalog_filenames_from_url. cbv zeta.
  destruct (String.eqb_spec url behroozi_web_location) as [->|Hurl].
  - destruct (String.eqb catalog_type "halo" || String.eqb catalog_type "halos") eqn:E1.
    + split.
      * intros H. now apply collect_links_no_type_error in H.
      * intros (_ & Hk & _). exfalso.
        apply (proj1 (slac_kind_cases catalog_type)) in E1. apply Hk. cbn.
        destruct E1 as [-> | ->]; tauto.
    + destruct (String.eqb catalog_type "tree" || String.eqb catalog_type "trees") eqn:E2.
      * split.
        -- intros H. now apply collect_links_no_type_error in H.
        -- intros (_ & Hk & _). exfalso.
           apply (proj2 (slac_kind_cases catalog_type)) in E2. apply Hk. cbn.
           destruct E2 as [-> | ->]; tauto.
      * split.
        -- intros [= <-]. split; [reflexivity|]. split; [|reflexivity].
           cbn. intros [<-|[<-|[<-|[<-|[]]]]]; discriminate.
        -- intros (_ & _ & ->). reflexivity.
  - split.
    + intros H. destruct (String.eqb url (aph_web_location dflt));
        now apply collect_links_no_type_error in H.
    + intros (H & _). contradiction.
Qed.

(** At the SLAC address the halo kinds keep the links that begin with
    ["hlist_"] and the tree kinds those that begin with ["tree_"], in page
    order. *)
Theorem retrieve_catalog_filenames_slac (dflt : defaults) (behroozi_web_location : string)
    (links : list string) (catalog_type : string) :
  (catalog_type = "halo" \/ catalog_type = "halos" ->
   retrieve_catalog_filenames_from_url dflt behroozi_web_location (map Some links)
     behroozi_web_location catalog_type =
   inr (List.filter (String.prefix "hlist_") links)) /\
  (catalog_type = "tree" \/ catalog_type = "trees" ->
   retrieve_catalog_filenames_from_url dflt behroozi_web_location (map Some links)
     behroozi_web_location catalog_type =
   inr (List.filter (String.prefix "tree_") links)).
Proof.
  unfold retrieve_catalog_filenames_from_url. cbv zeta.
  rewrite String.eqb_refl.
  split; intros H.
  - assert (E : String.eqb catalog_type "halo" || String.eqb catalog_type "halos" = true)
      by (destruct H as [-> | ->]; reflexivity).
    rewrite E, collect_links_hrefs. cbn [app]. f_equal.
    apply filter_ext. intros l. apply slice_prefix_eqb.
  - assert (E1 : String.eqb catalog_type "halo" || String.eqb catalog_type "halos" = false)
      by (destruct H as [-> | ->]; reflexivity).
    assert (E2 : String.eqb catalog_type "tree" || String.eqb catalog_type "trees" = true)
      by (destruct H as [-> | ->]; reflexivity).
    rewrite E1, E2, collect_links_hrefs. cbn [app]. f_equal.
    apply filter_ext. intros l. apply slice_prefix_eqb.
Qed.

(** The suffix the method looks for at the address of the default catalogs. *)
Lemma aph_suffix_spec (suffix link : string) :
  suffix <> "" ->
  String.eqb (slice link (Some (- len suffix)) None) suffix = is_suffix suffix link.
Proof. apply slice_suffix. Qed.

(** At the address of the default catalogs (when it is not also the SLAC
    address) the method keeps the links that end with ["halos.fits"] for the
    halo kinds, with ["particles.fits"] for the particle kinds, and with
    [".fits"] for every other kind, which is not an error there. *)
Theorem retrieve_catalog_filenames_aph (dflt : defaults) (behroozi_web_location : string)
    (links : list string) (catalog_type : string) :
  aph_web_location dflt <> behroozi_web_location ->
  retrieve_catalog_filenames_from_url dflt behroozi_web_location (map Some links)
    (aph_web_location dflt) catalog_type =
  inr (List.filter
         (is_suffix
            (if String.eqb catalog_type "halo" || String.eqb catalog_type "halos"
             then "halos.fits"
             else if String.eqb catalog_type "particle" || String.eqb catalog_type "particles"
             then "particles.fits"
             else ".fits"))
         links).
Proof.
  intros Hurl. unfold retrieve_catalog_filenames_from_url. cbv zeta.
  apply String.eqb_neq in Hurl. rewrite Hurl, String.eqb_refl.
  rewrite collect_links_hrefs. cbn [app]. f_equal.
  apply filter_ext. intros l. apply slice_suffix.
  destruct (String.eqb catalog_type "halo" || String.eqb catalog_type "halos");
    [discriminate|].
  destruct (String.eqb catalog_type "particle" || String.eqb catalog_type "particles");
    discriminate.
Qed.

(** At any other address every link of the page is returned, in page order,
    whatever the kind. *)
Theorem retrieve_catalog_filenames_other_url (dflt : defaults)
    (behroozi_web_location : string) (links : list string) (url catalog_type : string) :
  url <> behroozi_web_location -> url <> aph_web_location dflt ->
  retrieve_catalog_filenames_from_url dflt behroozi_web_location (map Some links)
    url catalog_type = inr links.
Proof.
  intros H1 H2. unfold retrieve_catalog_filenames_from_url. cbv zeta.
  apply String.eqb_neq in H1, H2. rewrite H1, H2, collect_links_hrefs. cbn [app].
  f_equal. induction links as [|l links IH]; [reflexivity|]. cbn. now rewrite IH.
Qed.

(** An anchor without [href] anywhere in the page makes the method raise
    [KeyError], unless the kind already raised the [TypeError]: no partial
    list is returned. *)
Theorem retrieve_catalog_filenames_missing_href (dflt : defaults)
    (behroozi_web_location : string) (anchors : list anchor) (url catalog_type : string) :
  In None anchors ->
  url <> behroozi_web_location \/ In catalog_type ["halo"; "halos"; "tree"; "trees"] ->
  retrieve_catalog_filenames_from_url dflt behroozi_web_location anchors url catalog_type
    = inl (KeyError "href").
Proof.
  intros Hin Hok. unfold retrieve_catalog_filenames_from_url. cbv zeta.
  destruct (String.eqb_spec url behroozi_web_location) as [->|Hurl].
  - destruct Hok as [Hok|Hok]; [congruence|].
    cbn in Hok.
    destruct Hok as [<-|[<-|[<-|[<-|[]]]]]; cbn [String.eqb Ascii.eqb Bool.eqb orb andb];
      now apply collect_links_missing_href.
  - destruct (String.eqb url (aph_web_location dflt)); now apply collect_links_missing_href.
Qed.

(** ** [download_all_default_catalogs] *)

(** [os.path.join] keeps its second argument at the end of the path. *)
Lemma path_join_suffix (a b : string) : exists x, path_join a b = x +:+ b.
Proof.
  unfold path_join. destruct (startswith_slash b); [now exists ""|].
  destruct (String.eqb a "" || endswith_slash a); [now exists a|].
  exists (a +:+ "/"). now rewrite append_assoc.
Qed.

(** The two default catalogs are never stored at the same path. *)
Lemma default_paths_differ (py_str : Q -> string) (dflt : defaults)
    (self : Catalog_Manager) (d1 d2 : string) :
  Catalog_Manager_init py_str dflt = Some self ->
  path_join d1 (default_halo_catalog_filename self) <>
  path_join d2 (default_particle_catalog_filename self).
Proof.
  unfold Catalog_Manager_init. intros Hinit.
  destruct (numptcl_to_string (default_numptcl dflt)) as [code|]; [|discriminate].
  cbn in Hinit. injection Hinit as <-.
  cbn [default_halo_catalog_filename default_particle_catalog_filename].
  destruct (path_join_suffix d1
              (default_simulation_name dflt +:+ "_a" +:+
               py_str (np_round_decimals (default_scale_factor dflt) 4) +:+ "_" +:+
               default_halo_finder dflt +:+ "_halos.fits")) as [x1 ->].
  destruct (path_join_suffix d2
              (default_simulation_name dflt +:+ "_a" +:+
               py_str (np_round_decimals (default_scale_factor dflt) 4) +:+ "_" +:+
               code +:+ "_particles.fits")) as [x2 ->].
  intros H. rewrite <- !append_assoc in H.
  change "_halos.fits" with ("_hal" +:+ "os.fits") in H.
  change "_particles.fits" with ("_particl" +:+ "es.fits") in H.
  rewrite <- !append_assoc in H.
  apply append_inj_tail in H; [discriminate | reflexivity].
Qed.

Section DownloadFacts.

Variable remote : gmap string string.
Variable self : Catalog_Manager.
Variable cfg : configuration.
Variable dflt : defaults.

Local Abbreviation halo_path :=
  (path_join (get_catalogs_dir cfg "halos") (default_halo_catalog_filename self)).
Local Abbreviation particle_path :=
  (path_join (get_catalogs_dir cfg "particles") (default_particle_catalog_filename self)).
Local Abbreviation halo_url :=
  (path_join (aph_web_location dflt) (default_halo_catalog_filename self)).
Local Abbreviation particle_url :=
  (path_join (aph_web_location dflt) (default_particle_catalog_filename self)).
Local Abbreviation download_all := (download_all_default_catalogs remote self cfg dflt).

(** The bulk download is the step for the halo catalog followed, when it
    does not raise, by the step for the particle catalog. *)
Lemma download_all_steps (w : world) :
  download_all w =
  (_ ← fetch_if_absent remote halo_path halo_url "Downloading default halo catalog";
   fetch_if_absent remote particle_path particle_url "Downloading default particle catalog") w.
Proof.
  unfold download_all_default_catalogs. cbv zeta.
  unfold mbind, session_bind, mret, session_ret, of_io, session_warn, isfile,
    urlopen_read, write_file, fetch_if_absent, io_bind, log.
  destruct (files w !! halo_path) as [c|] eqn:Hh.
  - rewrite bool_decide_eq_true_2 by eauto. cbn [negb].
    destruct (files w !! particle_path) as [c'|] eqn:Hp.
    + rewrite bool_decide_eq_true_2 by eauto. reflexivity.
    + rewrite bool_decide_eq_false_2 by (now intros [? ?]). cbn [negb].
      destruct (remote !! particle_url);
        cbn [files trace app]; rewrite <- ?app_assoc; reflexivity.
  - rewrite bool_decide_eq_false_2 by (now intros [? ?]). cbn [negb].
    destruct (remote !! halo_url) as [hb|]; [|reflexivity].
    cbn [files trace].
    destruct (<[halo_path := hb]> (files w) !! particle_path) as [c'|] eqn:Hp.
    + rewrite bool_decide_eq_true_2 by eauto.
      cbn [files trace app]; rewrite <- ?app_assoc; reflexivity.
    + rewrite bool_decide_eq_false_2 by (now intros [? ?]). cbn [negb files trace].
      destruct (remote !! particle_url);
        cbn [files trace app]; rewrite <- ?app_assoc; reflexivity.
Qed.

Lemma fetch_if_absent_keeps (out url msg : string) (w : world) (p c : string) :
  files w !! p = Some c ->
  files (fetch_if_absent remote out url msg w).1.1 !! p = Some c.
Proof.
  intros H. unfold fetch_if_absent.
  destruct (files w !! out) as [c'|] eqn:Hout; [exact H|].
  destruct (remote !! url); [|exact H]. cbn.
  rewrite lookup_insert_ne; [exact H | congruence].
Qed.

Lemma fetch_if_absent_present_after (out url msg : string) (w : world) :
  (fetch_if_absent remote out url msg w).2 = Return tt ->
  is_Some (files (fetch_if_absent remote out url msg w).1.1 !! out).
Proof.
  unfold fetch_if_absent.
  destruct (files w !! out) as [c'|] eqn:Hout; [cbn; intros _; rewrite Hout; eauto|].
  destruct (remote !! url); [|discriminate]. cbn. intros _.
  rewrite lookup_insert_eq. eauto.
Qed.

Lemma download_all_unfold (w : world) :
  download_all w =
  match fetch_if_absent remote halo_path halo_url "Downloading default halo catalog" w with
  | (w1, ws1, Return _) =>
      let '(w2, ws2, r) :=
        fetch_if_absent remote particle_path particle_url
          "Downloading default particle catalog" w1 in
      (w2, ws1 ++ ws2, r)
  | (w1, ws1, Raise e) => (w1, ws1, Raise e)
  end.
Proof. rewrite download_all_steps. reflexivity. Qed.

(** When both default catalogs are in their cache directories the bulk
    download does nothing: no warning, no URL opened, no file written. *)
Lemma download_all_cached (w : world) :
  is_Some (files w !! halo_path) -> is_Some (files w !! particle_path) ->
  download_all w = (w, [], Return tt).
Proof.
  intros [ch Hh] [cp Hp]. rewrite download_all_unfold.
  unfold fetch_if_absent. rewrite Hh, Hp. reflexivity.
Qed.

(** After a bulk download that did not raise, both default catalogs are in
    their cache directories. *)
Lemma download_all_success_cached (w w' : world) (ws : list string) :
  download_all w = (w', ws, Return tt) ->
  is_Some (files w' !! halo_path) /\ is_Some (files w' !! particle_path).
Proof.
  rewrite download_all_unfold.
  pose proof (fetch_if_absent_present_after halo_path halo_url
                "Downloading default halo catalog" w) as H1.
  destruct (fetch_if_absent remote halo_path halo_url _ w) as [[w1 ws1] [[]|e]]; [|discriminate].
  specialize (H1 eq_refl). cbn in H1.
  pose proof (fetch_if_absent_present_after particle_path particle_url
                "Downloading default particle catalog" w1) as H2.
  pose proof (fetch_if_absent_keeps particle_path particle_url
                "Downloading default particle catalog" w1 halo_path) as H3.
  destruct (fetch_if_absent remote particle_path particle_url _ w1) as [[w2 ws2] r].
  intros [= -> _ ->]. specialize (H2 eq_refl). cbn in H2, H3.
  split; [|exact H2]. destruct H1 as [c Hc]. rewrite (H3 c Hc). eauto.
Qed.

(** The bulk download is idempotent: run again after a run that did not
    raise, it does nothing. *)
Theorem download_all_idempotent (w w' : world) (ws : list string) :
  download_all w = (w', ws, Return tt) ->
  download_all w' = (w', [], Return tt).
Proof.
  intros H. apply download_all_success_cached in H as [Hh Hp].
  now apply download_all_cached.
Qed.

(** The bulk download never removes or overwrites a file: every file of the
    world before is in the world after, with the same content, whether the
    download returns or raises. *)
Lemma download_all_keeps (w : world) (p c : string) :
  files w !! p = Some c ->
  files (download_all w).1.1 !! p = Some c.
Proof.
  intros H. rewrite download_all_unfold.
  pose proof (fetch_if_absent_keeps halo_path halo_url
                "Downloading default halo catalog" w p c H) as H1.
  destruct (fetch_if_absent remote halo_path halo_url _ w) as [[w1 ws1] [[]|e]];
    [|exact H1].
  cbn in H1.
  pose proof (fetch_if_absent_keeps particle_path particle_url
                "Downloading default particle catalog" w1 p c H1) as H2.
  destruct (fetch_if_absent remote particle_path particle_url _ w1) as [[w2 ws2] r].
  exact H2.
Qed.

(** When the halo catalog is missing locally and [urlopen] raises for its
    URL, the download stops there with that error, after the halo warning:
    the particle catalog is not attempted, and no file is written. *)
Theorem download_all_halo_failure_stops (w : world) :
  files w !! halo_path = None ->
  remote !! halo_url = None ->
  download_all w =
  ({| files := files w; trace := trace w ++ [UrlOpen halo_url] |},
   ["Downloading default halo catalog"], Raise URLError).
Proof.
  intros Hh Hr. rewrite download_all_unfold. unfold fetch_if_absent.
  now rewrite Hh, Hr.
Qed.

(** When both default catalogs are missing and the archive serves both, the
    download fetches and writes the halo catalog, then the particle catalog,
    with one warning each. *)
Theorem download_all_fetches_both (py_str : Q -> string) (w : world)
    (halo_body particle_body : string) :
  Catalog_Manager_init py_str dflt = Some self ->
  files w !! halo_path = None ->
  files w !! particle_path = None ->
  remote !! halo_url = Some halo_body ->
  remote !! particle_url = Some particle_body ->
  download_all w =
  ({| files := <[particle_path := particle_body]> (<[halo_path := halo_body]> (files w));
      trace := trace w ++ [UrlOpen halo_url; FileWrite halo_path;
                           UrlOpen particle_url; FileWrite particle_path] |},
   ["Downloading default halo catalog"; "Downloading default particle catalog"],
   Return tt).
Proof.
  intros Hinit Hh Hp Hrh Hrp. rewrite download_all_unfold. unfold fetch_if_absent.
  rewrite Hh, Hrh. cbn [files trace].
  rewrite lookup_insert_ne by (eapply default_paths_differ; exact Hinit).
  rewrite Hp, Hrp. cbn [files trace app]. now rewrite <- app_assoc.
Qed.

(** When both default catalogs are in their cache directories the bulk
    download does nothing: no warning, no URL opened, no file written. *)
Theorem download_all_cached_is_noop (w : world) :
  is_Some (files w !! halo_path) -> is_Some (files w !! particle_path) ->
  download_all w = (w, [], Return tt).
Proof. exact (download_all_cached w). Qed.

(** The bulk download never removes or overwrites a file: every file of the
    world before is in the world after, with the same content, whether the
    download returns or raises. *)
Theorem download_all_keeps_files (w : world) (p c : string) :
  files w !! p = Some c ->
  files (download_all w).1.1 !! p = Some c.
Proof. exact (download_all_keeps w p c). Qed.

End DownloadFacts.

(** ** More on [load_catalog] *)

Lemma load_catalog_absent_no_download_files (Table : Type)
    (fits_table : string -> result Table) (remote : gmap string string)
    (self : Catalog_Manager) (cfg : configuration) (dirname : string)
    (filename : option string) (url : string) (w : world) :
  files w !! path_join dirname (requested_filename self filename) = None ->
  load_catalog Table fits_table remote self cfg dirname filename false url w =
  (w, Return None).
Proof.
  intros H. unfold load_catalog. fold (requested_filename self filename).
  unfold mbind at 1, io_bind at 1. now rewrite isfile_absent by exact H.
Qed.

Section LoaderCompositions.

Variable Table : Type.
Variable fits_table : string -> result Table.
Variable remote : gmap string string.
Variable self : Catalog_Manager.
Variable cfg : configuration.

Local Abbreviation load := (load_catalog Table fits_table remote self cfg).

(** When the default particle catalog has to be fetched and [urlopen]
    raises for its URL, [load_catalog] raises that error before the output
    file is opened: the files are as before, and the trace records the one
    URL. *)
Theorem load_catalog_fetch_failure (dirname url : string) (w : world) :
  files w !! path_join dirname (default_particle_catalog_filename self) = None ->
  remote !! path_join url (default_particle_catalog_filename self) = None ->
  load dirname (Some (default_particle_catalog_filename self)) true url w =
  ({| files := files w;
      trace := trace w ++ [UrlOpen (path_join url (default_particle_catalog_filename self))] |},
   Raise URLError).
Proof.
  intros Hf Hr. rewrite load_catalog_absent_download by exact Hf.
  cbv zeta. cbn [requested_filename]. now rewrite String.eqb_refl, Hr.
Qed.

(** After a fetch of the default particle catalog, a load from the particle
    cache directory finds the file: it returns what the reader makes of the
    fetched body and opens no URL, whatever [download_yn] is. *)
Theorem load_catalog_fetch_then_local (dirname url : string) (w : world) (body : string) :
  files w !! path_join dirname (default_particle_catalog_filename self) = None ->
  remote !! path_join url (default_particle_catalog_filename self) = Some body ->
  let out := path_join (get_catalogs_dir cfg "particles")
                       (default_particle_catalog_filename self) in
  let (w1, r1) := load dirname (Some (default_particle_catalog_filename self)) true url w in
  r1 = loaded fits_table body /\
  files w1 = <[out := body]> (files w) /\
  forall (download_yn : bool) (url' : string),
    load (get_catalogs_dir cfg "particles") (Some (default_particle_catalog_filename self))
      download_yn url' w1 =
    (log (FitsOpen out) w1, loaded fits_table body).
Proof.
  intros Hf Hr out. rewrite load_catalog_absent_download by exact Hf.
  cbv zeta. cbn [requested_filename]. rewrite String.eqb_refl, Hr. fold out.
  split; [reflexivity|]. split; [reflexivity|].
  intros download_yn url'.
  apply (load_catalog_present Table fits_table remote self cfg
           (get_catalogs_dir cfg "particles")
           (Some (default_particle_catalog_filename self)) download_yn url' _ body).
  cbn [files requested_filename]. fold out. apply lookup_insert_eq.
Qed.

(** [load_catalog] changes at most one file, the requested name in the
    particle cache directory: every other path holds after the call what it
    held before, whatever the outcome. *)
Theorem load_catalog_changes_one_file (dirname : string) (filename : option string)
    (download_yn : bool) (url : string) (w : world) (p : string) :
  p <> path_join (get_catalogs_dir cfg "particles") (requested_filename self filename) ->
  files (load dirname filename download_yn url w).1 !! p = files w !! p.
Proof.
  intros Hp.
  destruct (files w !! path_join dirname (requested_filename self filename))
    as [content|] eqn:Hf.
  - now rewrite (load_catalog_present Table fits_table remote self cfg dirname filename
                   download_yn url w content Hf).
  - destruct download_yn.
    + rewrite load_catalog_absent_download by exact Hf. cbv zeta.
      destruct (String.eqb _ _); [|reflexivity].
      destruct (remote !! _); [|reflexivity].
      cbn [fst files]. now rewrite lookup_insert_ne by congruence.
    + now rewrite load_catalog_absent_no_download_files by exact Hf.
Qed.

(** After a bulk download that did not raise, loading the default halo
    catalog from the halo cache directory reads the cached file: it does
    not reach the test of the file name that raises for that name. *)
Theorem download_all_then_load_halos (dflt : defaults) (w w' : world) (ws : list string) :
  download_all_default_catalogs remote self cfg dflt w = (w', ws, Return tt) ->
  let path := path_join (get_catalogs_dir cfg "halos") (default_halo_catalog_filename self) in
  exists content,
    files w' !! path = Some content /\
    forall (download_yn : bool) (url : string),
      load (get_catalogs_dir cfg "halos") (Some (default_halo_catalog_filename self))
        download_yn url w' =
      (log (FitsOpen path) w', loaded fits_table content).
Proof.
  intros H path. apply download_all_success_cached in H as [[content Hc] _].
  exists content. split; [exact Hc|]. intros download_yn url.
  now apply (load_catalog_present Table fits_table remote self cfg
               (get_catalogs_dir cfg "halos") (Some (default_halo_catalog_filename self))
               download_yn url w' content).
Qed.

End LoaderCompositions.

(** ** More on the lookup *)

Lemma quiet_lift_bind {A B : Type} (r : result A) (k : A -> warned B) :
  (forall a, quiet_on_error (k a)) -> quiet_on_error (lift r ≫= k).
Proof.
  intros Hk. destruct r as [a|e].
  - rewrite warned_bind_return. apply Hk.
  - rewrite warned_bind_raise. split; [cbn; lia | reflexivity].
Qed.

Lemma quiet_mret_bind {A B : Type} (a : A) (k : A -> warned B) :
  (forall a, quiet_on_error (k a)) -> quiet_on_error (mret a ≫= k).
Proof. intros Hk. rewrite warned_bind_mret. apply Hk. Qed.

Lemma quiet_warn_return {A : Type} (msg : string) (a : A) :
  quiet_on_error (_ ← warn msg; mret a).
Proof. split; [cbn; lia | discriminate]. Qed.

(** Every lookup, whatever its arguments and the cache, emits at most one
    warning, and none when it raises: a warning always comes with a
    returned value. *)
Theorem find_nearest_at_most_one_warning
    (py_float : string -> option Q) (py_str : Q -> string)
    (cfg : configuration) (dflt : defaults) (catalog_type : string)
    (scale_factor redshift : option Q) (simname halo_finder : string) :
  quiet_on_error
    (find_nearest_snapshot_in_cache py_float py_str cfg dflt catalog_type
       scale_factor redshift simname halo_finder).
Proof.
  unfold find_nearest_snapshot_in_cache. cbv zeta.
  assert (Hrest : forall q : Q, quiet_on_error
    (relevant_catalogs ←
       lift (identify_relevant_catalogs cfg (Some (fix_pluralization catalog_type))
               (Some simname)
               (if String.eqb (fix_pluralization catalog_type) "particles"
                then None else Some halo_finder));
     if Nat.eqb (length relevant_catalogs) 0 &&
        String.eqb (fix_pluralization catalog_type) "halos"
     then _ ← warn "Zero halo catalogs in cache match the input simname & halo-finder";
          mret (None, None)
     else if Nat.eqb (length relevant_catalogs) 0 &&
             String.eqb (fix_pluralization catalog_type) "particles"
     then _ ← warn "Zero particle catalogs in cache match the input simname";
          mret (None, None)
     else
       available_snapshots ←
         lift (comprehension
                 (fun a => float_of py_float
                             (slice a (Some (len simname + 2)) (Some (len simname + 2 + 6))))
                 relevant_catalogs);
       idx_nearest_snapshot ←
         lift (argmin (map (fun a => Qabs (a - q)) available_snapshots));
       nearest_snapshot ← lift (list_getitem available_snapshots idx_nearest_snapshot);
       filename_of_nearest_snapshot ←
         lift (list_getitem relevant_catalogs idx_nearest_snapshot);
       _ ← (if float_lt (scale_factor_difference_tol dflt) (Qabs (nearest_snapshot - q))
            then warn ("Closest match to desired snapshot has a scale factor of "
                       +:+ py_str nearest_snapshot)
            else mret tt);
       mret (Some filename_of_nearest_snapshot, Some nearest_snapshot))).
  { intros q. apply quiet_lift_bind. intros cs.
    destruct (Nat.eqb (length cs) 0 && String.eqb (fix_pluralization catalog_type) "halos");
      [apply quiet_warn_return|].
    destruct (Nat.eqb (length cs) 0 && String.eqb (fix_pluralization catalog_type) "particles");
      [apply quiet_warn_return|].
    apply quiet_lift_bind. intros snaps.
    apply quiet_lift_bind. intros i.
    apply quiet_lift_bind. intros a.
    apply quiet_lift_bind. intros f.
    destruct (float_lt _ _).
    - apply quiet_warn_return.
    - rewrite warned_bind_mret. split; [cbn; lia | discriminate]. }
  destruct scale_factor as [q|], redshift as [z|].
  - split; [cbn; lia | reflexivity].
  - apply quiet_mret_bind. intros q'. apply Hrest.
  - apply quiet_lift_bind. intros q'. apply Hrest.
  - split; [cbn; lia | reflexivity].
Qed.


Lemma filter_sublist (p : string -> bool) (l : list string) :
  sublist (List.filter p l) l.
Proof.
  induction l as [|x l IH]; cbn [List.filter]; [constructor|].
  destruct (p x); [now apply sublist_skip | now apply sublist_cons].
Qed.

(** The names [identify_relevant_catalogs] returns are names of the listing,
    in listing order and as often as listed: the filters drop names, they
    never add or reorder them. *)
Theorem identify_relevant_catalogs_sublist (cfg : configuration)
    (catalog_type simname halo_finder : option string) (relevant : list string) :
  identify_relevant_catalogs cfg catalog_type simname halo_finder = Return relevant ->
  sublist relevant (list_of_catalogs_in_cache cfg (fix_pluralization <$> catalog_type)).
Proof.
  intros H. apply identify_relevant_catalogs_returns in H. subst.
  apply filter_sublist.
Qed.

(** ** [processed_snapshot] *)

Section SnapshotFacts.

Variable py_float : string -> option Q.
Variable py_str : Q -> string.
Variable remote : gmap string string.
Variable cache : world -> configuration.
Variable dflt : defaults.
Variable catman : Catalog_Manager.

Local Abbreviation init :=
  (Snapshot.processed_snapshot_init py_float py_str remote cache dflt catman).
Local Abbreviation choose :=
  (Snapshot.exact_match_or_default remote cache dflt catman).
Local Abbreviation lookup w kind simname q hf :=
  (find_nearest_snapshot_in_cache py_float py_str (cache w) dflt kind (Some q) None simname hf).

Lemma choose_exact (found : option string * option Q) (q : Q) (download_yn : bool)
    (default_filename filename : string) (w : world) :
  exact_match found q = Some filename ->
  choose found q download_yn default_filename w = (w, [], Return filename).
Proof.
  unfold exact_match, Snapshot.exact_match_or_default.
  destruct found as [[f|] [a|]]; try discriminate.
  destruct (Qeq_bool a q); [|discriminate]. now intros [= ->].
Qed.

Lemma choose_default_no_download (found : option string * option Q) (q : Q)
    (default_filename : string) (w : world) :
  exact_match found q = None ->
  choose found q false default_filename w = (w, [], Return default_filename).
Proof.
  unfold exact_match, Snapshot.exact_match_or_default.
  destruct found as [[f|] [a|]]; try reflexivity.
  destruct (Qeq_bool a q); [discriminate | reflexivity].
Qed.

Lemma choose_default_download (found : option string * option Q) (q : Q)
    (default_filename : string) (w : world) :
  exact_match found q = None ->
  choose found q true default_filename w =
  match download_all_default_catalogs remote catman (cache w) dflt w with
  | (w', ws, Return _) => (w', ws, Return default_filename)
  | (w', ws, Raise e) => (w', ws, Raise e)
  end.
Proof.
  intros H.
  assert (E : choose found q true default_filename w =
              (_ ← (cfg ← Snapshot.current_configuration cache;
                    download_all_default_catalogs remote catman cfg dflt);
               mret default_filename) w).
  { unfold exact_match in H. unfold Snapshot.exact_match_or_default.
    destruct found as [[f|] [a|]]; try reflexivity.
    destruct (Qeq_bool a q); [discriminate | reflexivity]. }
  rewrite E. unfold mbind, session_bind, mret, session_ret, Snapshot.current_configuration.
  cbn [app].
  destruct (download_all_default_catalogs remote catman (cache w) dflt w)
    as [[w' ws] [[]|e]]; cbn [app]; now rewrite ?app_nil_r.
Qed.

(** The snapshot that [__init__] builds from the two file names. *)
Lemma init_unfold (simname : string) (q : Q) (hf : string) (download_yn : bool) (w : world) :
  init simname q hf download_yn w =
  match outcome (lookup w "halos" simname q hf) with
  | Raise e => (w, warnings (lookup w "halos" simname q hf), Raise e)
  | Return found_halos =>
      match choose found_halos q download_yn (default_halo_catalog_filename catman) w with
      | (w1, ws1, Raise e) => (w1, warnings (lookup w "halos" simname q hf) ++ ws1, Raise e)
      | (w1, ws1, Return halo_filename) =>
          match outcome (lookup w1 "particles" simname q hf) with
          | Raise e =>
              (w1, warnings (lookup w "halos" simname q hf) ++ ws1 ++
                   warnings (lookup w1 "particles" simname q hf), Raise e)
          | Return found_particles =>
              match choose found_particles q download_yn
                      (default_particle_catalog_filename catman) w1 with
              | (w2, ws2, Raise e) =>
                  (w2, warnings (lookup w "halos" simname q hf) ++ ws1 ++
                       warnings (lookup w1 "particles" simname q hf) ++ ws2, Raise e)
              | (w2, ws2, Return particle_filename) =>
                  (w2, warnings (lookup w "halos" simname q hf) ++ ws1 ++
                       warnings (lookup w1 "particles" simname q hf) ++ ws2,
                   Return
                     {| Snapshot.simulation_name := simname;
                        Snapshot.scale_factor := q;
                        Snapshot.halo_finder := hf;
                        Snapshot.download_yn := download_yn;
                        Snapshot.catalog_manager := catman;
                        Snapshot.Lbox := (get_simulation_properties simname).1.1;
                        Snapshot.particle_mass := (get_simulation_properties simname).1.2;
                        Snapshot.softening_length := (get_simulation_properties simname).2;
                        Snapshot.halo_catalog_filename := halo_filename;
                        Snapshot.halo_catalog_dirname := get_catalogs_dir (cache w1) "halos";
                        Snapshot.particle_catalog_filename := particle_filename;
                        Snapshot.particle_catalog_dirname :=
                          get_catalogs_dir (cache w2) "particles" |})
              end
          end
      end
  end.
Proof.
  unfold Snapshot.processed_snapshot_init.
  destruct (get_simulation_properties simname) as [[Lbox mp] softening]. cbn [fst snd].
  unfold mbind, session_bind, mret, session_ret, Snapshot.current_configuration, of_warned.
  cbn [app].
  destruct (outcome (lookup w "halos" simname q hf)) as [fh|e]; [|rewrite ?app_nil_r; reflexivity].
  destruct (choose fh q download_yn (default_halo_catalog_filename catman) w)
    as [[w1 ws1] [halo_filename|e]]; [|rewrite ?app_nil_r; reflexivity].
  cbn [app].
  destruct (outcome (lookup w1 "particles" simname q hf)) as [fp|e];
    [|rewrite ?app_nil_r; reflexivity].
  destruct (choose fp q download_yn (default_particle_catalog_filename catman) w1)
    as [[w2 ws2] [particle_filename|e]]; cbn [app]; rewrite ?app_nil_r; reflexivity.
Qed.

Lemma choose_no_download (found : option string * option Q) (q : Q)
    (default_filename : string) (w : world) :
  choose found q false default_filename w =
  (w, [], Return (default default_filename (exact_match found q))).
Proof.
  destruct (exact_match found q) as [f|] eqn:E.
  - now apply choose_exact.
  - now apply choose_default_no_download.
Qed.

Lemma choose_keeps (found : option string * option Q) (q : Q) (download_yn : bool)
    (default_filename : string) (w : world) (p c : string) :
  files w !! p = Some c ->
  files (choose found q download_yn default_filename w).1.1 !! p = Some c.
Proof.
  intros H. destruct (exact_match found q) as [f|] eqn:E.
  - now rewrite (choose_exact found q download_yn default_filename f w E).
  - destruct download_yn.
    + rewrite choose_default_download by exact E.
      pose proof (download_all_keeps remote catman (cache w) dflt w p c H) as Hk.
      destruct (download_all_default_catalogs remote catman (cache w) dflt w)
        as [[w' ws] [[]|e]]; exact Hk.
    + now rewrite choose_default_no_download by exact E.
Qed.

(** Without permission to download, building a snapshot has no effect on
    the world: no URL is opened and no file is written, whether the
    construction returns or raises. *)
Theorem snapshot_init_no_download_no_effect (simname : string) (q : Q) (hf : string)
    (w : world) :
  (init simname q hf false w).1.1 = w.
Proof.
  rewrite init_unfold.
  destruct (outcome (lookup w "halos" simname q hf)) as [fh|e]; [|reflexivity].
  rewrite choose_no_download.
  destruct (outcome (lookup w "particles" simname q hf)) as [fp|e]; [|reflexivity].
  now rewrite choose_no_download.
Qed.

(** Without permission to download, when the two lookups return, the
    snapshot keeps a match only when its scale factor equals the requested
    one; any other match, however near, and a missing match are replaced by
    the default file name of the kind. The warnings are those of the two
    lookups. *)
Theorem snapshot_init_no_download_names (simname : string) (q : Q) (hf : string)
    (w : world) (found_halos found_particles : option string * option Q) :
  outcome (lookup w "halos" simname q hf) = Return found_halos ->
  outcome (lookup w "particles" simname q hf) = Return found_particles ->
  exists s,
    init simname q hf false w =
    (w, warnings (lookup w "halos" simname q hf) ++
        warnings (lookup w "particles" simname q hf), Return s) /\
    Snapshot.halo_catalog_filename s =
      default (default_halo_catalog_filename catman) (exact_match found_halos q) /\
    Snapshot.particle_catalog_filename s =
      default (default_particle_catalog_filename catman) (exact_match found_particles q) /\
    Snapshot.halo_catalog_dirname s = get_catalogs_dir (cache w) "halos" /\
    Snapshot.particle_catalog_dirname s = get_catalogs_dir (cache w) "particles".
Proof.
  intros Hh Hp. rewrite init_unfold, Hh, choose_no_download, Hp, choose_no_download.
  eexists. split; [cbn [app]; rewrite ?app_nil_r; reflexivity|].
  cbn. auto.
Qed.

(** When both lookups find a file whose scale factor equals the requested
    one, the snapshot names those files and nothing is downloaded, even
    with permission to download: the world is unchanged. *)
Theorem snapshot_init_exact_matches (simname : string) (q : Q) (hf : string)
    (download_yn : bool) (w : world) (found_halos found_particles : option string * option Q)
    (halo_filename particle_filename : string) :
  outcome (lookup w "halos" simname q hf) = Return found_halos ->
  outcome (lookup w "particles" simname q hf) = Return found_particles ->
  exact_match found_halos q = Some halo_filename ->
  exact_match found_particles q = Some particle_filename ->
  exists s,
    init simname q hf download_yn w =
    (w, warnings (lookup w "halos" simname q hf) ++
        warnings (lookup w "particles" simname q hf), Return s) /\
    Snapshot.halo_catalog_filename s = halo_filename /\
    Snapshot.particle_catalog_filename s = particle_filename.
Proof.
  intros Hh Hp Eh Ep. rewrite init_unfold, Hh.
  rewrite (choose_exact found_halos q download_yn _ halo_filename w Eh), Hp.
  rewrite (choose_exact found_particles q download_yn _ particle_filename w Ep).
  eexists. split; [cbn [app]; rewrite ?app_nil_r; reflexivity|].
  cbn. auto.
Qed.

Variable Table : Type.
Variable fits_table : string -> result Table.

(** When the halo lookup has no exact match and downloading is allowed, a
    snapshot that is built names the default halo catalog, and its [halos]
    property then reads the file that the bulk download cached: it opens no
    URL and its result is what the table reader makes of that file. The
    cache directories are those of the module [configuration], the same in
    every world. *)
Theorem snapshot_fallback_halos_are_local (simname : string) (q : Q) (hf : string)
    (w w' : world) (ws : list string) (s : Snapshot.processed_snapshot)
    (found_halos : option string * option Q) :
  (forall w1 w2 kind, get_catalogs_dir (cache w1) kind = get_catalogs_dir (cache w2) kind) ->
  outcome (lookup w "halos" simname q hf) = Return found_halos ->
  exact_match found_halos q = None ->
  init simname q hf true w = (w', ws, Return s) ->
  let path := path_join (get_catalogs_dir (cache w) "halos")
                        (default_halo_catalog_filename catman) in
  Snapshot.halo_catalog_filename s = default_halo_catalog_filename catman /\
  exists content,
    files w' !! path = Some content /\
    Snapshot.halos remote cache Table fits_table dflt s w' =
    (log (FitsOpen path) w', loaded fits_table content).
Proof.
  intros Hstable Hh Eh Hinit path. rewrite init_unfold, Hh in Hinit.
  rewrite choose_default_download in Hinit by exact Eh.
  destruct (download_all_default_catalogs remote catman (cache w) dflt w)
    as [[w1 ws1] [[]|e]] eqn:Hd; [|discriminate].
  apply download_all_success_cached in Hd as [[content Hc] _]. fold path in Hc.
  destruct (outcome (lookup w1 "particles" simname q hf)) as [fp|e]; [|discriminate].
  pose proof (choose_keeps fp q true (default_particle_catalog_filename catman) w1
                path content Hc) as Hk.
  destruct (choose fp q true (default_particle_catalog_filename catman) w1)
    as [[w2 ws2] [pf|e]]; [|discriminate].
  cbn [fst] in Hk. injection Hinit as <- _ <-. cbn [Snapshot.halo_catalog_filename].
  split; [reflexivity|]. exists content. split; [exact Hk|].
  unfold Snapshot.halos. cbn [Snapshot.halo_catalog_filename Snapshot.halo_catalog_dirname
    Snapshot.catalog_manager Snapshot.download_yn].
  rewrite (Hstable w1 w "halos"). fold path.
  apply (load_catalog_present Table fits_table remote catman (cache w2)
           (get_catalogs_dir (cache w) "halos")
           (Some (default_halo_catalog_filename catman)) true
           (aph_web_location dflt) w2 content).
  exact Hk.
Qed.

End SnapshotFacts.

(** ** The properties above at concrete inputs *)

Lemma default_halo_catalog_is_candidate_witness :
  exists cs,
    candidates default_cache_configuration "halos" "bolshoi" "rockstar" = Return cs /\
    In "bolshoi_a1.0003_rockstar_halos.fits" cs.
Proof.
  apply (default_halo_catalog_is_candidate decimal_str example_defaults example_manager
           default_cache_configuration).
  - reflexivity.
  - cbn. tauto.
  - cbn. intuition discriminate.
Defined.

Lemma default_particle_catalog_is_candidate_witness :
  exists cs,
    candidates default_cache_configuration "particles" "bolshoi" "bdm" = Return cs /\
    In "bolshoi_a1.0003_2e5_particles.fits" cs.
Proof.
  apply (default_particle_catalog_is_candidate decimal_str example_defaults example_manager
           default_cache_configuration "bdm").
  - reflexivity.
  - cbn. tauto.
  - cbn. intuition discriminate.
Defined.

Lemma default_filenames_decode_witness :
  decoded_scale_factor decimal_float "bolshoi" "bolshoi_a1.0003_rockstar_halos.fits"
    = Some (10003 # 10000)%Q /\
  decoded_scale_factor decimal_float "bolshoi" "bolshoi_a1.0003_2e5_particles.fits"
    = Some (10003 # 10000)%Q.
Proof.
  apply (default_filenames_decode decimal_float decimal_str example_defaults example_manager).
  - reflexivity.
  - reflexivity.
Defined.

Lemma halo_and_particle_kinds_disjoint_witness :
  ~ In "bolshoi_a0.7000_rockstar_halos.fits" ["bolshoi_a1.0003_2e5_particles.fits"].
Proof.
  apply (halo_and_particle_kinds_disjoint example_configuration
           (Some "bolshoi") (Some "rockstar") (Some "bolshoi") None
           ["bolshoi_a0.5000_rockstar_halos.fits"; "bolshoi_a0.7000_rockstar_halos.fits";
            "bolshoi_a0.9000_rockstar_halos.fits"]
           ["bolshoi_a1.0003_2e5_particles.fits"]).
  - reflexivity.
  - reflexivity.
  - cbn. tauto.
Defined.

Lemma retrieve_catalog_filenames_type_error_witness :
  retrieve_catalog_filenames_from_url example_defaults example_behroozi_web_location
    [None] example_behroozi_web_location "particles" =
  inl (TypeError "Input catalog type must either be 'halos' or 'trees'").
Proof.
  apply retrieve_catalog_filenames_type_error.
  split; [reflexivity|]. split; [|reflexivity].
  cbn. intuition discriminate.
Defined.

Lemma retrieve_catalog_filenames_slac_witness :
  retrieve_catalog_filenames_from_url example_defaults example_behroozi_web_location
    (map Some example_links) example_behroozi_web_location "halos" =
  inr ["hlist_1.00030.list"].
Proof.
  destruct (retrieve_catalog_filenames_slac example_defaults example_behroozi_web_location
              example_links "halos") as [H _].
  rewrite H; [reflexivity | now right].
Defined.

Lemma retrieve_catalog_filenames_aph_witness :
  retrieve_catalog_filenames_from_url example_defaults example_behroozi_web_location
    (map Some example_links) "http://archive.example/catalogs" "trees" =
  inr ["bolshoi_a1.0003_rockstar_halos.fits"; "bolshoi_a1.0003_2e5_particles.fits"].
Proof.
  change "http://archive.example/catalogs" with (aph_web_location example_defaults).
  rewrite (retrieve_catalog_filenames_aph example_defaults example_behroozi_web_location
             example_links "trees").
  - reflexivity.
  - discriminate.
Defined.

Lemma retrieve_catalog_filenames_other_url_witness :
  retrieve_catalog_filenames_from_url example_defaults example_behroozi_web_location
    (map Some example_links) "http://elsewhere.example/" "anything" =
  inr example_links.
Proof.
  apply retrieve_catalog_filenames_other_url; discriminate.
Defined.

Lemma retrieve_catalog_filenames_missing_href_witness :
  retrieve_catalog_filenames_from_url example_defaults example_behroozi_web_location
    [Some "hlist_1.00030.list"; None] example_behroozi_web_location "halos" =
  inl (KeyError "href").
Proof.
  apply retrieve_catalog_filenames_missing_href.
  - cbn. tauto.
  - right. cbn. tauto.
Defined.

Lemma download_all_cached_is_noop_witness :
  download_all_default_catalogs example_remote example_manager example_configuration
    example_defaults default_cache_world = (default_cache_world, [], Return tt).
Proof.
  apply download_all_cached_is_noop; eexists; reflexivity.
Defined.

Lemma download_all_idempotent_witness :
  exists w' ws,
    download_all_default_catalogs example_remote example_manager example_configuration
      example_defaults example_world = (w', ws, Return tt) /\
    download_all_default_catalogs example_remote example_manager example_configuration
      example_defaults w' = (w', [], Return tt).
Proof.
  eexists _, _. split; [reflexivity|].
  apply (download_all_idempotent example_remote example_manager example_configuration
           example_defaults example_world _
           ["Downloading default halo catalog"; "Downloading default particle catalog"]).
  reflexivity.
Defined.

Lemma download_all_keeps_files_witness :
  files (download_all_default_catalogs example_remote example_manager example_configuration
           example_defaults example_world).1.1
    !! "/cache/halos/bolshoi_a0.7000_rockstar_halos.fits" = Some "cached halo rows".
Proof.
  apply download_all_keeps_files. reflexivity.
Defined.

Lemma download_all_halo_failure_stops_witness :
  download_all_default_catalogs particle_only_remote example_manager example_configuration
    example_defaults example_world =
  ({| files := files example_world;
      trace := [UrlOpen "http://archive.example/catalogs/bolshoi_a1.0003_rockstar_halos.fits"] |},
   ["Downloading default halo catalog"], Raise URLError).
Proof.
  apply (download_all_halo_failure_stops particle_only_remote example_manager
           example_configuration example_defaults example_world); reflexivity.
Defined.

Lemma download_all_fetches_both_witness :
  download_all_default_catalogs example_remote example_manager example_configuration
    example_defaults example_world =
  ({| files :=
        <["/cache/particles/bolshoi_a1.0003_2e5_particles.fits" := "particle rows"]>
          (<["/cache/halos/bolshoi_a1.0003_rockstar_halos.fits" := "halo rows"]>
             (files example_world));
      trace :=
        [UrlOpen "http://archive.example/catalogs/bolshoi_a1.0003_rockstar_halos.fits";
         FileWrite "/cache/halos/bolshoi_a1.0003_rockstar_halos.fits";
         UrlOpen "http://archive.example/catalogs/bolshoi_a1.0003_2e5_particles.fits";
         FileWrite "/cache/particles/bolshoi_a1.0003_2e5_particles.fits"] |},
   ["Downloading default halo catalog"; "Downloading default particle catalog"],
   Return tt).
Proof.
  apply (download_all_fetches_both example_remote example_manager example_configuration
           example_defaults decimal_str example_world "halo rows" "particle rows");
    reflexivity.
Defined.

Lemma load_catalog_fetch_failure_witness :
  load_catalog string example_reader ∅ example_manager example_configuration
    "/cache/particles" (Some "bolshoi_a1.0003_2e5_particles.fits") true
    "http://archive.example/catalogs" example_world =
  ({| files := files example_world;
      trace := [UrlOpen "http://archive.example/catalogs/bolshoi_a1.0003_2e5_particles.fits"] |},
   Raise URLError).
Proof.
  apply (load_catalog_fetch_failure string example_reader ∅ example_manager
           example_configuration "/cache/particles" "http://archive.example/catalogs"
           example_world); reflexivity.
Defined.

Lemma load_catalog_fetch_then_local_witness :
  (load_catalog string example_reader example_remote example_manager example_configuration
     "/somewhere/else" (Some "bolshoi_a1.0003_2e5_particles.fits") true
     "http://archive.example/catalogs" example_world).2 = Return (Some "particle rows").
Proof.
  pose proof (load_catalog_fetch_then_local string example_reader example_remote
                example_manager example_configuration "/somewhere/else"
                "http://archive.example/catalogs" example_world "particle rows"
                eq_refl eq_refl) as H.
  cbv zeta in H.
  destruct (load_catalog string example_reader example_remote example_manager
              example_configuration "/somewhere/else"
              (Some (default_particle_catalog_filename example_manager)) true
              "http://archive.example/catalogs" example_world) as [w1 r1] eqn:E.
  change (default_particle_catalog_filename example_manager)
    with "bolshoi_a1.0003_2e5_particles.fits" in E.
  rewrite E. destruct H as [Hr _]. exact Hr.
Defined.

Lemma load_catalog_changes_one_file_witness :
  files (load_catalog string example_reader example_remote example_manager
           example_configuration "/cache/particles"
           (Some "bolshoi_a1.0003_2e5_particles.fits") true
           "http://archive.example/catalogs" example_world).1
    !! "/cache/halos/bolshoi_a0.7000_rockstar_halos.fits" =
  files example_world !! "/cache/halos/bolshoi_a0.7000_rockstar_halos.fits".
Proof.
  apply load_catalog_changes_one_file. discriminate.
Defined.

Lemma download_all_then_load_halos_witness :
  exists w' ws,
    download_all_default_catalogs example_remote example_manager example_configuration
      example_defaults example_world = (w', ws, Return tt) /\
    load_catalog string example_reader example_remote example_manager example_configuration
      "/cache/halos" (Some "bolshoi_a1.0003_rockstar_halos.fits") true
      "http://archive.example/catalogs" w' =
    (log (FitsOpen "/cache/halos/bolshoi_a1.0003_rockstar_halos.fits") w',
     Return (Some "halo rows")).
Proof.
  eexists _, _. split; [reflexivity|].
  destruct (download_all_then_load_halos string example_reader example_remote
              example_manager example_configuration example_defaults example_world _
              ["Downloading default halo catalog"; "Downloading default particle catalog"]
              eq_refl) as (content & Hc & Hload).
  vm_compute in Hc. injection Hc as <-.
  exact (Hload true "http://archive.example/catalogs").
Defined.


Lemma identify_relevant_catalogs_sublist_witness :
  sublist ["bolshoi_a0.5000_rockstar_halos.fits"; "bolshoi_a0.7000_rockstar_halos.fits";
           "bolshoi_a0.9000_rockstar_halos.fits"] example_listing.
Proof.
  apply (identify_relevant_catalogs_sublist example_configuration (Some "halos")
           (Some "bolshoi") (Some "rockstar")).
  reflexivity.
Defined.

Lemma snapshot_init_no_download_names_witness :
  exists s,
    Snapshot.processed_snapshot_init decimal_float decimal_str example_remote example_cache
      example_defaults example_manager "bolshoi" (7 # 10)%Q "rockstar" false example_world =
    (example_world,
     ["Closest match to desired snapshot has a scale factor of 1.0003"], Return s) /\
    Snapshot.halo_catalog_filename s = "bolshoi_a0.7000_rockstar_halos.fits" /\
    Snapshot.particle_catalog_filename s = "bolshoi_a1.0003_2e5_particles.fits".
Proof.
  destruct (snapshot_init_no_download_names decimal_float decimal_str example_remote
              example_cache example_defaults example_manager "bolshoi" (7 # 10)%Q "rockstar"
              example_world
              (Some "bolshoi_a0.7000_rockstar_halos.fits", Some (7 # 10)%Q)
              (Some "bolshoi_a1.0003_2e5_particles.fits", Some (10003 # 10000)%Q)
              eq_refl eq_refl)
    as (s & Hinit & Hh & Hp & _).
  exists s. split; [exact Hinit|]. split; [exact Hh | exact Hp].
Defined.

Lemma snapshot_init_exact_matches_witness :
  exists s,
    Snapshot.processed_snapshot_init decimal_float decimal_str example_remote default_cache
      example_defaults example_manager "bolshoi" (10003 # 10000)%Q "rockstar" true
      example_world = (example_world, [], Return s) /\
    Snapshot.halo_catalog_filename s = "bolshoi_a1.0003_rockstar_halos.fits" /\
    Snapshot.particle_catalog_filename s = "bolshoi_a1.0003_2e5_particles.fits".
Proof.
  apply (snapshot_init_exact_matches decimal_float decimal_str example_remote default_cache
           example_defaults example_manager "bolshoi" (10003 # 10000)%Q "rockstar" true
           example_world
           (Some "bolshoi_a1.0003_rockstar_halos.fits", Some (10003 # 10000)%Q)
           (Some "bolshoi_a1.0003_2e5_particles.fits", Some (10003 # 10000)%Q));
    reflexivity.
Defined.

Lemma snapshot_fallback_halos_are_local_witness :
  let w' :=
    {| files :=
         <["/cache/particles/bolshoi_a1.0003_2e5_particles.fits" := "particle rows"]>
           (<["/cache/halos/bolshoi_a1.0003_rockstar_halos.fits" := "halo rows"]>
              (files example_world));
       trace :=
         [UrlOpen "http://archive.example/catalogs/bolshoi_a1.0003_rockstar_halos.fits";
          FileWrite "/cache/halos/bolshoi_a1.0003_rockstar_halos.fits";
          UrlOpen "http://archive.example/catalogs/bolshoi_a1.0003_2e5_particles.fits";
          FileWrite "/cache/particles/bolshoi_a1.0003_2e5_particles.fits"] |} in
  let s :=
    {| Snapshot.simulation_name := "bolshoi";
       Snapshot.scale_factor := (65 # 100)%Q;
       Snapshot.halo_finder := "rockstar";
       Snapshot.download_yn := true;
       Snapshot.catalog_manager := example_manager;
       Snapshot.Lbox := Some (250 # 1)%Q;
       Snapshot.particle_mass := Some (135000000 # 1)%Q;
       Snapshot.softening_length := Some (1 # 1)%Q;
       Snapshot.halo_catalog_filename := "bolshoi_a1.0003_rockstar_halos.fits";
       Snapshot.halo_catalog_dirname := "/cache/halos";
       Snapshot.particle_catalog_filename := "bolshoi_a1.0003_2e5_particles.fits";
       Snapshot.particle_catalog_dirname := "/cache/particles" |} in
  Snapshot.halos example_remote example_cache string example_reader example_defaults s w' =
  (log (FitsOpen "/cache/halos/bolshoi_a1.0003_rockstar_halos.fits") w',
   Return (Some "halo rows")).
Proof.
  intros w' s.
  destruct (snapshot_fallback_halos_are_local decimal_float decimal_str example_remote
              example_cache example_defaults example_manager string example_reader
              "bolshoi" (65 # 100)%Q "rockstar" example_world w'
              ["Downloading default halo catalog"; "Downloading default particle catalog";
               "Closest match to desired snapshot has a scale factor of 1.0003"]
              s (Some "bolshoi_a0.7000_rockstar_halos.fits", Some (7 # 10)%Q))
    as (_ & content & Hc & Hhalos).
  - reflexivity.
  - reflexivity.
  - reflexivity.
  - reflexivity.
  - vm_compute in Hc. injection Hc as <-. exact Hhalos.
Defined.
